(** * basic_memory.mcp.tools.canvas

    A shallow embedding of the [canvas] tool of the Basic Memory MCP server
    (src/basic_memory/mcp/tools/canvas.py) and of the parts of Python's
    [json] module it relies on, with the properties of the tool stated and
    proved over it.

    Layout of the file:
    - [Str]      Python [str] values as sequences of code points;
    - [Python]   exceptions, and the limits of the interpreter that make
                 [json.dumps] and [json.loads] raise;
    - [Json]     the values [json.dumps] accepts, [json.dumps(obj, indent=n)]
                 (json.encoder) and [json.loads] (json.decoder, json.scanner);
    - [Canvas]   the tool itself, over its two collaborators
                 [get_active_project] and [call_put];
    - [Server]   a concrete resource server to run the tool against;
    - facts about strings, about the json module and about the tool. *)

From Stdlib Require Import String Ascii List NArith ZArith Lia Bool.
From Stdlib Require DecimalFacts DecimalPos DecimalZ.
Import ListNotations.

Set Implicit Arguments.

(* ================================================================== *)
(** * Python strings *)

Module Str.

(** A Python [str] is a sequence of Unicode code points; [ord] of a
    character is below [0x110000].  Surrogate code points (U+D800 to
    U+DFFF) are legal elements of a [str]. *)
Definition str := list N.

Definition max_code_point : N := 1114112.

(** A string literal of the source, given by its (ASCII) text. *)
Definition lit (s : string) : str :=
  List.map N_of_ascii (list_ascii_of_string s).

Fixpoint eqb (a b : str) : bool :=
  match a, b with
  | [], [] => true
  | x :: a', y :: b' => N.eqb x y && eqb a' b'
  | _, _ => false
  end.

(** [s.endswith(suffix)] *)
Definition endswith (s suffix : str) : bool :=
  Nat.leb (length suffix) (length s)
  && eqb (skipn (length s - length suffix) s) suffix.

(** The text of a string of ASCII characters, the inverse of [lit]. *)
Definition text_of (s : str) : string :=
  string_of_list_ascii (List.map ascii_of_N s).

(** [s.startswith(prefix)] *)
Fixpoint startswith (s prefix : str) : bool :=
  match prefix, s with
  | [], _ => true
  | x :: prefix', y :: s' => N.eqb x y && startswith s' prefix'
  | _ :: _, [] => false
  end.

(** [sep.join(parts)] *)
Fixpoint join (sep : str) (parts : list str) : str :=
  match parts with
  | [] => []
  | [p] => p
  | p :: rest => p ++ sep ++ join sep rest
  end.

(** [c * n] for a one-character string [c] *)
Definition times (c : N) (n : nat) : str := repeat c n.

End Str.

Import Str.

(* ================================================================== *)
(** * Exceptions and the limits of the interpreter *)

Module Python.

(** Exceptions, identified by their class.  The first four are the ones
    the [json] module and [response.json()] raise; those of the
    collaborators are carried by [Raised]. *)
Inductive exn : Type :=
| JSONDecodeError
| ValueError
| RecursionError
| UnicodeDecodeError
| Raised (class : string).

(** What an invocation depends on besides its arguments and collaborators.
    [max_str_digits] is [sys.get_int_max_str_digits()]: an [int] with more
    decimal digits than this is neither written by [int.__repr__] nor read
    by [int(str)], both raise [ValueError]; it is 4300 unless the process
    changed it, and 0 switches the limit off.  [encoder_depth] and
    [decoder_depth] are how many containers, one inside the other,
    [json.dumps] and [json.loads] can enter before the recursion limit of
    the interpreter is reached and [RecursionError] is raised; they depend
    on the recursion limit and on how deep the stack of the caller is. *)
Record Interpreter : Type := {
  max_str_digits : nat;
  encoder_depth : nat;
  decoder_depth : nat
}.

(** A numeral of [digits] digits is over the limit. *)
Definition exceeds (limit digits : nat) : bool :=
  negb (Nat.eqb limit 0) && Nat.ltb limit digits.

End Python.

Import Python.

(* ================================================================== *)
(** * The [json] module *)

Module Json.

(** The Python objects that occur as arguments of [json.dumps] and as
    results of [json.loads].  A [dict] is kept as the list of its items in
    insertion order, which is the order [json.dumps] writes them in; its
    keys are [str] and pairwise distinct (see [value_ok]).  A [float] is
    carried as the text of a numeral that denotes it: float arithmetic is
    outside this development, two numerals of one float are two values
    here, and every statement about what [json.loads] makes of the output
    of [json.dumps] is restricted to objects without floats.  An object is
    a finite tree: a container that contains itself, on which [json.dumps]
    raises, is not represented. *)
#[local] Unset Elimination Schemes.
Inductive value : Type :=
| VNone
| VBool (b : bool)
| VInt (n : Z)
| VFloat (numeral : string)
| VStr (s : str)
| VList (items : list value)
| VDict (items : list (str * value)).
#[local] Set Elimination Schemes.

(** ** json.encoder *)

Definition QUOTE : N := 34.
Definition BACKSLASH : N := 92.

Definition hexdigit (d : N) : N :=
  if (d <? 10)%N then (48 + d)%N else (87 + d)%N.

(** ['{0:04x}'.format(n)], used below [0x10000] only: four lower-case
    hexadecimal digits. *)
Definition format_04x (n : N) : str :=
  [ hexdigit ((n / 4096) mod 16); hexdigit ((n / 256) mod 16);
    hexdigit ((n / 16) mod 16); hexdigit (n mod 16) ]%N.

Definition u_escape (n : N) : str := BACKSLASH :: 117%N :: format_04x n.

(** The [replace] function of [py_encode_basestring_ascii]: what one
    character matched by [ESCAPE_ASCII] (a backslash, a double quote, or
    anything outside [' '..'~']) is replaced with; every other character
    stands for itself. *)
Definition replace (c : N) : str :=
  if (c =? BACKSLASH)%N then [BACKSLASH; BACKSLASH]
  else if (c =? QUOTE)%N then [BACKSLASH; QUOTE]
  else if (c =? 8)%N then [BACKSLASH; 98%N]
  else if (c =? 12)%N then [BACKSLASH; 102%N]
  else if (c =? 10)%N then [BACKSLASH; 110%N]
  else if (c =? 13)%N then [BACKSLASH; 114%N]
  else if (c =? 9)%N then [BACKSLASH; 116%N]
  else if ((32 <=? c) && (c <=? 126))%N then [c]
  else if (c <? 65536)%N then u_escape c
  else
    let n := (c - 65536)%N in
    let s1 := N.lor 55296 (N.land (N.shiftr n 10) 1023) in
    let s2 := N.lor 56320 (N.land n 1023) in
    u_escape s1 ++ u_escape s2.

Definition py_encode_basestring_ascii (s : str) : str :=
  QUOTE :: flat_map replace s ++ [QUOTE].

Definition digit_char (d : N) : N := (48 + d)%N.

Fixpoint uint_chars (u : Decimal.uint) : str :=
  match u with
  | Decimal.Nil => []
  | Decimal.D0 u' => digit_char 0 :: uint_chars u'
  | Decimal.D1 u' => digit_char 1 :: uint_chars u'
  | Decimal.D2 u' => digit_char 2 :: uint_chars u'
  | Decimal.D3 u' => digit_char 3 :: uint_chars u'
  | Decimal.D4 u' => digit_char 4 :: uint_chars u'
  | Decimal.D5 u' => digit_char 5 :: uint_chars u'
  | Decimal.D6 u' => digit_char 6 :: uint_chars u'
  | Decimal.D7 u' => digit_char 7 :: uint_chars u'
  | Decimal.D8 u' => digit_char 8 :: uint_chars u'
  | Decimal.D9 u' => digit_char 9 :: uint_chars u'
  end.

(** The decimal numeral of an integer, with a minus sign when negative. *)
Definition numeral (n : Z) : str :=
  match Z.to_int n with
  | Decimal.Pos u => uint_chars u
  | Decimal.Neg u => 45%N :: uint_chars u
  end.

(** The number of digits of that numeral, the sign not counted. *)
Definition digits (n : Z) : nat :=
  match Z.to_int n with
  | Decimal.Pos u => Decimal.nb_digits u
  | Decimal.Neg u => Decimal.nb_digits u
  end.

(** [int.__repr__]: the numeral, or [ValueError] when it has more digits
    than the limit on integer strings. *)
Definition int_repr (limit : nat) (n : Z) : exn + str :=
  if exceeds limit (digits n) then inl ValueError else inr (numeral n).

Definition item_separator : str := lit ",".
Definition key_separator : str := lit ": ".

(** ['\n' + _indent * _current_indent_level], with [_indent = ' ' * indent] *)
Definition newline_indent (indent level : nat) : str :=
  10%N :: times 32%N (indent * level).

(** [_iterencode] of [_make_iterencode], for an integer [indent] and the
    other options at their defaults ([ensure_ascii=True], separators
    [(',', ': ')]); [level] is [_current_indent_level].  This is the text
    of the chunks it yields, in order, when none of them raises; what it
    raises is [iterencode_error] below. *)
Fixpoint iterencode (indent level : nat) (o : value) : str :=
  match o with
  | VNone => lit "null"
  | VBool true => lit "true"
  | VBool false => lit "false"
  | VInt n => numeral n
  | VFloat numeral => lit numeral
  | VStr s => py_encode_basestring_ascii s
  | VList [] => lit "[]"
  | VList lst =>
      lit "[" ++ newline_indent indent (S level)
      ++ join (item_separator ++ newline_indent indent (S level))
              (List.map (iterencode indent (S level)) lst)
      ++ newline_indent indent level ++ lit "]"
  | VDict [] => lit "{}"
  | VDict dct =>
      lit "{" ++ newline_indent indent (S level)
      ++ join (item_separator ++ newline_indent indent (S level))
              (List.map (fun kv => py_encode_basestring_ascii (fst kv)
                                   ++ key_separator
                                   ++ iterencode indent (S level) (snd kv))
                        dct)
      ++ newline_indent indent level ++ lit "}"
  end.

(** The first exception among the outcomes of consecutive steps. *)
Fixpoint first_raised (steps : list (option exn)) : option exn :=
  match steps with
  | [] => None
  | Some e :: _ => Some e
  | None :: steps' => first_raised steps'
  end.

(** The exception [_iterencode] raises while it produces the chunks of
    [o], if any: the first one met in the order the chunks are produced.
    [int.__repr__] raises on an integer with too many digits, and entering
    a list or a dict (an empty one too) raises [RecursionError] when
    [depth] containers are already entered. *)
Fixpoint iterencode_error (limit depth : nat) (o : value) {struct o} : option exn :=
  match o with
  | VInt n =>
      match int_repr limit n with
      | inl e => Some e
      | inr _ => None
      end
  | VList lst =>
      match depth with
      | O => Some RecursionError
      | S depth' => first_raised (List.map (iterencode_error limit depth') lst)
      end
  | VDict dct =>
      match depth with
      | O => Some RecursionError
      | S depth' =>
          first_raised (List.map (fun kv => iterencode_error limit depth' (snd kv)) dct)
      end
  | _ => None
  end.

(** [json.dumps(obj, indent=indent)]: the chunks joined, unless producing
    them raised. *)
Definition dumps (interp : Interpreter) (obj : value) (indent : nat) : exn + str :=
  match iterencode_error (max_str_digits interp) (encoder_depth interp) obj with
  | Some e => inl e
  | None => inr (iterencode indent 0 obj)
  end.

(** ** json.decoder and json.scanner

    Decoding functions take the text that is still to be read and return
    the decoded object with the text that follows it, or the exception
    they raise.  Where [JSONDecodeError] is the only exception a function
    can raise, [None] stands for it. *)

(** [WHITESPACE_STR = ' \t\n\r'] *)
Definition is_ws (c : N) : bool :=
  ((c =? 32) || (c =? 9) || (c =? 10) || (c =? 13))%N.

(** [WHITESPACE.match(s, end).end()] *)
Fixpoint skip_ws (s : str) : str :=
  match s with
  | c :: s' => if is_ws c then skip_ws s' else s
  | [] => []
  end.

Definition hexval (c : N) : option N :=
  if ((48 <=? c) && (c <=? 57))%N then Some (c - 48)%N
  else if ((97 <=? c) && (c <=? 102))%N then Some (c - 87)%N
  else if ((65 <=? c) && (c <=? 70))%N then Some (c - 55)%N
  else None.

(** [_decode_uXXXX]: the value of four hexadecimal digits. *)
Definition decode_uXXXX (a b c d : N) : option N :=
  match hexval a, hexval b, hexval c, hexval d with
  | Some x3, Some x2, Some x1, Some x0 =>
      Some (((x3 * 16 + x2) * 16 + x1) * 16 + x0)%N
  | _, _, _, _ => None
  end.

(** The [BACKSLASH] table of json.decoder. *)
Definition backslash_char (esc : N) : option N :=
  if (esc =? QUOTE)%N then Some QUOTE
  else if (esc =? BACKSLASH)%N then Some BACKSLASH
  else if (esc =? 47)%N then Some 47%N
  else if (esc =? 98)%N then Some 8%N
  else if (esc =? 102)%N then Some 12%N
  else if (esc =? 110)%N then Some 10%N
  else if (esc =? 114)%N then Some 13%N
  else if (esc =? 116)%N then Some 9%N
  else None.

Definition is_high_surrogate (u : N) : bool := ((55296 <=? u) && (u <=? 56319))%N.
Definition is_low_surrogate (u : N) : bool := ((56320 <=? u) && (u <=? 57343))%N.

(** [0x10000 + (((uni - 0xd800) << 10) | (uni2 - 0xdc00))] *)
Definition join_surrogates (uni uni2 : N) : N :=
  (65536 + N.lor (N.shiftl (uni - 55296) 10) (uni2 - 56320))%N.

Definition push (c : N) (r : option (str * str)) : option (str * str) :=
  match r with
  | Some (chars, rest) => Some (c :: chars, rest)
  | None => None
  end.

(** [py_scanstring] with [strict=True], started just after the opening
    quote: the decoded string and the text after the closing quote. *)
Fixpoint scanstring (s : str) : option (str * str) :=
  match s with
  | [] => None
  | c :: s1 =>
      if (c =? QUOTE)%N then Some ([], s1)
      else if (c =? BACKSLASH)%N then
        match s1 with
        | [] => None
        | esc :: s2 =>
            if (esc =? 117)%N then
              match s2 with
              | a :: b :: c' :: d :: s3 =>
                  match decode_uXXXX a b c' d with
                  | None => None
                  | Some uni =>
                      match s3 with
                      | b1 :: u1 :: e :: f :: g :: h :: s4 =>
                          if is_high_surrogate uni && (b1 =? BACKSLASH)%N && (u1 =? 117)%N
                          then
                            match decode_uXXXX e f g h with
                            | None => None
                            | Some uni2 =>
                                if is_low_surrogate uni2
                                then push (join_surrogates uni uni2) (scanstring s4)
                                else push uni (scanstring s3)
                            end
                          else push uni (scanstring s3)
                      | b1 :: u1 :: _ =>
                          if is_high_surrogate uni && (b1 =? BACKSLASH)%N && (u1 =? 117)%N
                          then None
                          else push uni (scanstring s3)
                      | _ => push uni (scanstring s3)
                      end
                  end
              | _ => None
              end
            else
              match backslash_char esc with
              | Some ch => push ch (scanstring s2)
              | None => None
              end
        end
      else if (c <? 32)%N then None
      else push c (scanstring s1)
  end.

Definition digit_of_char (c : N) : option (Decimal.uint -> Decimal.uint) :=
  if (c =? 48)%N then Some Decimal.D0
  else if (c =? 49)%N then Some Decimal.D1
  else if (c =? 50)%N then Some Decimal.D2
  else if (c =? 51)%N then Some Decimal.D3
  else if (c =? 52)%N then Some Decimal.D4
  else if (c =? 53)%N then Some Decimal.D5
  else if (c =? 54)%N then Some Decimal.D6
  else if (c =? 55)%N then Some Decimal.D7
  else if (c =? 56)%N then Some Decimal.D8
  else if (c =? 57)%N then Some Decimal.D9
  else None.

(** The longest run of decimal digits at the start of [s], as a numeral,
    and the text after it. *)
Fixpoint take_digits (s : str) : Decimal.uint * str :=
  match s with
  | c :: s' =>
      match digit_of_char c with
      | Some d => let (u, rest) := take_digits s' in (d u, rest)
      | None => (Decimal.Nil, s)
      end
  | [] => (Decimal.Nil, [])
  end.

(** The integer part of [NUMBER_RE]: a single zero, or a non-zero digit
    followed by any number of digits. *)
Definition match_digits (s : str) : option (Decimal.uint * str) :=
  match s with
  | c :: s' =>
      if (c =? 48)%N then Some (Decimal.D0 Decimal.Nil, s')
      else if ((49 <=? c) && (c <=? 57))%N then Some (take_digits s)
      else None
  | [] => None
  end.

(** The optional fraction of [NUMBER_RE], a dot and at least one digit:
    the matched text, empty when the group does not match. *)
Definition match_frac (s : str) : str * str :=
  match s with
  | c :: s' =>
      if (c =? 46)%N then
        match take_digits s' with
        | (Decimal.Nil, _) => ([], s)
        | (u, rest) => (c :: uint_chars u, rest)
        end
      else ([], s)
  | [] => ([], [])
  end.

(** The optional exponent of [NUMBER_RE]: [e] or [E], an optional sign and
    at least one digit. *)
Definition match_exp (s : str) : str * str :=
  match s with
  | c :: s' =>
      if ((c =? 101) || (c =? 69))%N then
        match s' with
        | sg :: s'' =>
            if ((sg =? 45) || (sg =? 43))%N then
              match take_digits s'' with
              | (Decimal.Nil, _) => ([], s)
              | (u, rest) => (c :: sg :: uint_chars u, rest)
              end
            else
              match take_digits s' with
              | (Decimal.Nil, _) => ([], s)
              | (u, rest) => (c :: uint_chars u, rest)
              end
        | [] => ([], s)
        end
      else ([], s)
  | [] => ([], [])
  end.

(** [int(integer)] for the integer part [NUMBER_RE] matched, a sign and
    the digits [u]: [ValueError] when there are more digits than the limit
    on integer strings. *)
Definition parse_int (limit : nat) (neg : bool) (u : Decimal.uint) : exn + value :=
  if exceeds limit (Decimal.nb_digits u) then inl ValueError
  else inr (VInt (Z.of_int (if neg then Decimal.Neg u else Decimal.Pos u))).

(** [NUMBER_RE.match] followed by the conversion of [_scan_once]: [int]
    of the integer part when there is neither fraction nor exponent, a
    float otherwise.  [None] when the text does not match; the conversion
    to [int] can raise, the one to [float] cannot. *)
Definition match_number (limit : nat) (s : str) : option (exn + value * str) :=
  let (neg, s0) :=
    match s with
    | c :: s' => if (c =? 45)%N then (true, s') else (false, s)
    | [] => (false, s)
    end in
  match match_digits s0 with
  | None => None
  | Some (u, s1) =>
      let (frac, s2) := match_frac s1 in
      let (exp, s3) := match_exp s2 in
      match frac, exp with
      | [], [] =>
          match parse_int limit neg u with
          | inr res => Some (inr (res, s3))
          | inl e => Some (inl e)
          end
      | _, _ =>
          Some (inr (VFloat (text_of ((if neg then [45%N] else [])
                                      ++ uint_chars u ++ frac ++ exp)), s3))
      end
  end.

(** [s[idx:idx+len(p)] == p], returning the text after [p]. *)
Fixpoint after_prefix (p s : str) : option str :=
  match p, s with
  | [], _ => Some s
  | x :: p', y :: s' => if (x =? y)%N then after_prefix p' s' else None
  | _ :: _, [] => None
  end.

(** [d[key] = value] on a dict: an existing key keeps its position. *)
Fixpoint setitem (d : list (str * value)) (key : str) (v : value) : list (str * value) :=
  match d with
  | [] => [(key, v)]
  | (k, w) :: d' => if Str.eqb k key then (k, v) :: d' else (k, w) :: setitem d' key v
  end.

(** [dict(pairs)] *)
Definition dict_of_pairs (pairs : list (str * value)) : list (str * value) :=
  fold_left (fun d kv => setitem d (fst kv) (snd kv)) pairs [].

Section Containers.

(** [scan_once] for the values nested in the container being read. *)
Variable scan_once : str -> exn + value * str.

(** The [while True] loop of [JSONArray], entered at a value; [n] bounds
    the number of iterations. *)
Fixpoint array_loop (n : nat) (s : str) : exn + list value * str :=
  match n with
  | O => inl JSONDecodeError
  | S n' =>
      match scan_once s with
      | inl e => inl e
      | inr (v, r) =>
          match skip_ws r with
          | c :: r' =>
              if (c =? 93)%N then inr ([v], r')
              else if (c =? 44)%N then
                match array_loop n' (skip_ws r') with
                | inr (vs, r'') => inr (v :: vs, r'')
                | inl e => inl e
                end
              else inl JSONDecodeError
          | [] => inl JSONDecodeError
          end
      end
  end.

(** [JSONArray], started just after the opening bracket. *)
Definition JSONArray (n : nat) (s : str) : exn + value * str :=
  match skip_ws s with
  | c :: r =>
      if (c =? 93)%N then inr (VList [], r)
      else
        match array_loop n (c :: r) with
        | inr (vs, r') => inr (VList vs, r')
        | inl e => inl e
        end
  | [] => inl JSONDecodeError
  end.

(** The [while True] loop of [JSONObject], entered just after the
    opening quote of a key. *)
Fixpoint object_loop (n : nat) (s : str) : exn + list (str * value) * str :=
  match n with
  | O => inl JSONDecodeError
  | S n' =>
      match scanstring s with
      | None => inl JSONDecodeError
      | Some (key, r0) =>
          match skip_ws r0 with
          | c0 :: r1 =>
              if (c0 =? 58)%N then
                match scan_once (skip_ws r1) with
                | inl e => inl e
                | inr (v, r2) =>
                    match skip_ws r2 with
                    | c :: r3 =>
                        if (c =? 125)%N then inr ([(key, v)], r3)
                        else if (c =? 44)%N then
                          match skip_ws r3 with
                          | q :: r4 =>
                              if (q =? QUOTE)%N then
                                match object_loop n' r4 with
                                | inr (kvs, r5) => inr ((key, v) :: kvs, r5)
                                | inl e => inl e
                                end
                              else inl JSONDecodeError
                          | [] => inl JSONDecodeError
                          end
                        else inl JSONDecodeError
                    | [] => inl JSONDecodeError
                    end
                end
              else inl JSONDecodeError
          | [] => inl JSONDecodeError
          end
      end
  end.

(** [JSONObject], started just after the opening brace. *)
Definition JSONObject (n : nat) (s : str) : exn + value * str :=
  match skip_ws s with
  | c :: r =>
      if (c =? 125)%N then inr (VDict [], r)
      else if (c =? QUOTE)%N then
        match object_loop n r with
        | inr (pairs, r') => inr (VDict (dict_of_pairs pairs), r')
        | inl e => inl e
        end
      else inl JSONDecodeError
  | [] => inl JSONDecodeError
  end.

End Containers.

Definition constant (name : str) (v : value) (s : str) : exn + value * str :=
  match after_prefix name s with
  | Some r => inr (v, r)
  | None => inl JSONDecodeError
  end.

(** [_scan_once] of the scanner, for an interpreter whose limit on integer
    strings is [limit] and in which [depth] more containers can be
    entered: an opening brace or bracket met when none can raises
    [RecursionError], whatever follows it.  [fuel] bounds the number of
    items of a container and, with [depth], the nesting; [loads] supplies
    more than the text can use. *)
Fixpoint scan_once (limit depth fuel : nat) (s : str) {struct fuel}
  : exn + value * str :=
  match fuel with
  | O => inl JSONDecodeError
  | S fuel' =>
      match s with
      | [] => inl JSONDecodeError
      | nextchar :: s' =>
          if (nextchar =? QUOTE)%N then
            match scanstring s' with
            | Some (chars, r) => inr (VStr chars, r)
            | None => inl JSONDecodeError
            end
          else if (nextchar =? 123)%N then
            match depth with
            | O => inl RecursionError
            | S depth' => JSONObject (scan_once limit depth' fuel') fuel' s'
            end
          else if (nextchar =? 91)%N then
            match depth with
            | O => inl RecursionError
            | S depth' => JSONArray (scan_once limit depth' fuel') fuel' s'
            end
          else if (nextchar =? 110)%N then constant (lit "null") VNone s
          else if (nextchar =? 116)%N then constant (lit "true") (VBool true) s
          else if (nextchar =? 102)%N then constant (lit "false") (VBool false) s
          else
            match match_number limit s with
            | Some r => r
            | None =>
                if (nextchar =? 78)%N then constant (lit "NaN") (VFloat "NaN") s
                else if (nextchar =? 73)%N then constant (lit "Infinity") (VFloat "Infinity") s
                else if (nextchar =? 45)%N then constant (lit "-Infinity") (VFloat "-Infinity") s
                else inl JSONDecodeError
            end
      end
  end.

(** [json.loads(s)] for a [str]: no byte order mark, one value, then
    nothing but whitespace. *)
Definition loads (interp : Interpreter) (s : str) : exn + value :=
  if startswith s [65279%N] then inl JSONDecodeError
  else
    match scan_once (max_str_digits interp) (decoder_depth interp)
                    (S (length s)) (skip_ws s) with
    | inr (obj, r) =>
        match skip_ws r with
        | [] => inr obj
        | _ :: _ => inl JSONDecodeError
        end
    | inl e => inl e
    end.

(** ** Well-formed arguments

    The code points of a [str] are in range; the one condition beyond that
    is on surrogates: a high surrogate (U+D800 to U+DBFF) is not
    immediately followed by a low one (U+DC00 to U+DFFF).  Text that was
    decoded from UTF-8 or UTF-16 contains no surrogate at all. *)
Definition low_surrogate_next (s : str) : bool :=
  match s with
  | c :: _ => is_low_surrogate c
  | [] => false
  end.

Fixpoint str_ok (s : str) : bool :=
  match s with
  | [] => true
  | c :: s' =>
      (c <? max_code_point)%N
      && negb (is_high_surrogate c && low_surrogate_next s')
      && str_ok s'
  end.

(** The keys of a [dict] are pairwise distinct. *)
Fixpoint distinct (keys : list str) : bool :=
  match keys with
  | [] => true
  | k :: keys' => negb (existsb (Str.eqb k) keys') && distinct keys'
  end.

(** The objects built from [None], [bool], [int], [str], [list] and
    [dict] with [str] keys: no [float]. *)
Fixpoint value_ok (v : value) : bool :=
  match v with
  | VNone | VBool _ | VInt _ => true
  | VFloat _ => false
  | VStr s => str_ok s
  | VList items => forallb value_ok items
  | VDict items =>
      distinct (List.map fst items)
      && forallb (fun kv => str_ok (fst kv) && value_ok (snd kv)) items
  end.

(** How many containers, one inside the other, an object is made of. *)
Fixpoint nesting (v : value) : nat :=
  match v with
  | VList items => S (list_max (List.map nesting items))
  | VDict items => S (list_max (List.map (fun kv => nesting (snd kv)) items))
  | _ => 0
  end.

(** No integer of the object has more digits than the limit on integer
    strings allows. *)
Fixpoint ints_within (limit : nat) (v : value) : bool :=
  match v with
  | VInt n => negb (exceeds limit (digits n))
  | VList items => forallb (ints_within limit) items
  | VDict items => forallb (fun kv => ints_within limit (snd kv)) items
  | _ => true
  end.

End Json.

Import Json.

(* ================================================================== *)
(** * The canvas tool *)

Module Canvas.

(** [CanvasNode] and [CanvasEdge] are [TypedDict]s declared with
    [total=False]: at run time a node or an edge is a plain [dict] in which
    any of the declared keys may be absent.  A declaration lists the keys
    with the types of their values. *)
Inductive field_type : Type := Tstr | Tint.

Definition CanvasNode : list (string * field_type) :=
  [ ("id", Tstr); ("type", Tstr); ("x", Tint); ("y", Tint);
    ("width", Tint); ("height", Tint); ("file", Tstr); ("text", Tstr);
    ("url", Tstr); ("color", Tstr); ("label", Tstr) ]%string.

Definition CanvasEdge : list (string * field_type) :=
  [ ("id", Tstr); ("fromNode", Tstr); ("toNode", Tstr); ("fromSide", Tstr);
    ("toSide", Tstr); ("color", Tstr); ("label", Tstr) ]%string.

(** A [bool] is an [int] in Python. *)
Definition has_type (t : field_type) (v : value) : bool :=
  match t, v with
  | Tstr, VStr _ => true
  | Tint, VInt _ => true
  | Tint, VBool _ => true
  | _, _ => false
  end.

(** [v] is a dict whose items all have a declared key and a value of the
    type declared for it. *)
Definition conforms (declared : list (string * field_type)) (v : value) : bool :=
  match v with
  | VDict items =>
      forallb (fun kv =>
                 existsb (fun d => Str.eqb (lit (fst d)) (fst kv)
                                   && has_type (snd d) (snd kv))
                         declared)
              items
  | _ => false
  end.

(** The object [get_active_project] returns; [project_url] is the only
    attribute the tool reads. *)
Record Project : Type := { project_url : str }.

(** The [httpx.Response] that [call_put] returns: its status code and the
    text of its body, as decoded for the JSON decoder; [None] when the
    bytes of the body do not decode to text. *)
Record Response : Type := { status_code : Z; text : option str }.

(** [response.json()]: the body decoded to text and parsed by
    [json.loads].  It raises [UnicodeDecodeError] when the bytes of the
    body do not decode, and whatever [json.loads] raises on the text. *)
Definition Response_json (interp : Interpreter) (response : Response) : exn + value :=
  match text response with
  | Some body => loads interp body
  | None => inl UnicodeDecodeError
  end.

(** What an invocation does that can be observed from outside, in the
    order it happens: the two log records and the remote write, the latter
    with what came back from it. *)
Inductive event : Type :=
| Info (message : str)
| Debug (obj : value)
| Put (url : str) (json : value) (reply : exn + Response).

(** The requests of the remote writes among [evs]. *)
Fixpoint puts (evs : list event) : list (str * value) :=
  match evs with
  | [] => []
  | Put url json _ :: evs' => (url, json) :: puts evs'
  | _ :: evs' => puts evs'
  end.

(** The responses received from the remote writes among [evs]. *)
Fixpoint responses (evs : list event) : list Response :=
  match evs with
  | [] => []
  | Put _ _ (inr response) :: evs' => response :: responses evs'
  | _ :: evs' => responses evs'
  end.

Section Tool.

(** The state of everything outside the tool (the project registry, the
    session, the resource server) and the tool-invocation context. *)
Variables World Context : Type.

(** The two functions of the repository the tool calls.  They are not
    part of canvas.py: the tool is modelled over any behaviour of
    theirs.  Each reads and updates the outside state and either returns
    or raises.  The global [client] both receive is part of that state. *)
Record Collaborators : Type := {
  get_active_project :
    option Context -> option str -> World -> World * (exn + Project);
  call_put : str -> value -> World -> World * (exn + Response)
}.

(** The result of running a computation: the outside state it leaves,
    the events it produced, and the value returned or exception raised. *)
Record run (A : Type) : Type :=
  { world : World; events : list event; outcome : exn + A }.

Definition M (A : Type) : Type := World -> run A.

Definition ret {A} (a : A) : M A :=
  fun w => {| world := w; events := []; outcome := inr a |}.

Definition raise {A} (e : exn) : M A :=
  fun w => {| world := w; events := []; outcome := inl e |}.

Definition bind {A B} (m : M A) (k : A -> M B) : M B :=
  fun w =>
    let r := m w in
    match outcome r with
    | inl e => {| world := world r; events := events r; outcome := inl e |}
    | inr a =>
        let r' := k a (world r) in
        {| world := world r';
           events := events r ++ events r';
           outcome := outcome r' |}
    end.

Definition emit (ev : event) : M unit :=
  fun w => {| world := w; events := [ev]; outcome := inr tt |}.

Notation "x <- m ;; k" := (bind m (fun x => k))
  (at level 61, m at next level, right associativity).
Notation "m ;; k" := (bind m (fun _ => k))
  (at level 61, right associativity).

(** A step that touches nothing outside: it returns or raises. *)
Definition lift {A} (r : exn + A) : M A :=
  fun w => {| world := w; events := []; outcome := r |}.

Variable interp : Interpreter.
Variable env : Collaborators.

(** [await get_active_project(client, context=..., project_override=...)] *)
Definition await_get_active_project
    (context : option Context) (project_override : option str) : M Project :=
  fun w =>
    let (w', r) := get_active_project env context project_override w in
    {| world := w'; events := []; outcome := r |}.

(** [await call_put(client, url, json=...)] *)
Definition await_call_put (url : str) (json : value) : M Response :=
  fun w =>
    let (w', r) := call_put env url json w in
    {| world := w'; events := [Put url json r]; outcome := r |}.

Definition logger_info (message : str) : M unit := emit (Info message).
Definition logger_debug (obj : value) : M unit := emit (Debug obj).

(** [title if title.endswith(".canvas") else f"{title}.canvas"] *)
Definition file_title (title : str) : str :=
  if endswith title (lit ".canvas") then title else title ++ lit ".canvas".

(** [f"{folder}/{file_title}"] *)
Definition file_path (folder title : str) : str :=
  folder ++ lit "/" ++ file_title title.

(** [{"nodes": nodes, "edges": edges}] *)
Definition canvas_data (nodes edges : list value) : value :=
  VDict [(lit "nodes", VList nodes); (lit "edges", VList edges)].

(** The text [json.dumps(canvas_data, indent=2)] returns, when it
    returns. *)
Definition canvas_json (nodes edges : list value) : str :=
  iterencode 2 0 (canvas_data nodes edges).

(** ["Created" if response.status_code == 201 else "Updated"] *)
Definition action (response : Response) : str :=
  if (status_code response =? 201)%Z then lit "Created" else lit "Updated".

(** The list the tool joins into its return value. *)
Definition summary (response : Response) (folder title : str) : list str :=
  [ lit "# " ++ action response ++ lit ": " ++ file_path folder title;
    10%N :: lit "The canvas is ready to open in Obsidian." ].

(** The tool, canvas.py lines 138 to 163. *)
Definition canvas (nodes edges : list value) (title folder : str)
    (project : option str) (context : option Context) : M str :=
  active_project <- await_get_active_project context project ;;
  let project_url := project_url active_project in
  let file_path := file_path folder title in
  let canvas_data := canvas_data nodes edges in
  canvas_json <- lift (dumps interp canvas_data 2) ;;
  logger_info (lit "Creating canvas file: " ++ file_path) ;;
  response <- await_call_put
                (project_url ++ lit "/resource/" ++ file_path)
                (VStr canvas_json) ;;
  result <- lift (Response_json interp response) ;;
  logger_debug result ;;
  ret (join [10%N] (summary response folder title)).

End Tool.

Arguments ret {World A} a.
Arguments raise {World A} e.
Arguments lift {World A} r.

(** Modelled from the spec: [call_put] (basic_memory.mcp.tools.utils) is
    not part of canvas.py, so what it puts on the wire for its [json]
    argument is taken from the specification, section 4.1 step 6: the
    transport call treats the value it is given as its own JSON payload,
    that is, the body of the request is the JSON encoding of that value.
    The tool only ever passes a [str], whose encoding no layout option
    affects. *)
Definition wire_body (json : value) : str := iterencode 0 0 json.

End Canvas.

Import Canvas.

(* ================================================================== *)
(** * A concrete resource server

    An instance of the collaborators to run the tool against: projects are
    looked up in a fixed registry, and the resource server keeps the
    documents written to it, answering 201 for a new path and 200 for a
    path it already holds.  The interpreter has the default limit on
    integer strings, and room for 900 nested containers below the default
    recursion limit of 1000. *)

Module Server.

Definition interpreter : Interpreter :=
  {| max_str_digits := 4300; encoder_depth := 900; decoder_depth := 900 |}.

Definition store : Type := list (str * value).

Fixpoint stored (url : str) (w : store) : bool :=
  match w with
  | [] => false
  | (u, _) :: w' => Str.eqb u url || stored url w'
  end.

Definition registry : list str := [lit "main"; lit "work-project"].

Definition default_project : str := lit "main".

Definition resolve (context : option unit) (override : option str) (w : store)
  : store * (exn + Project) :=
  let name := match override with Some n => n | None => default_project end in
  if existsb (Str.eqb name) registry
  then (w, inr {| project_url := lit "/" ++ name |})
  else (w, inl (Raised "ProjectResolutionError")).

Definition put (url : str) (json : value) (w : store) : store * (exn + Response) :=
  ((url, json) :: w,
   inr {| status_code := if stored url w then 200 else 201;
          text := Some (lit "{}") |}).

Definition env : Collaborators store unit :=
  {| get_active_project := resolve; call_put := put |}.

(** A server that answers every write with the given response. *)
Definition answering (response : Response) : Collaborators store unit :=
  {| get_active_project := resolve;
     call_put := fun url json w => ((url, json) :: w, inr response) |}.

End Server.

(* ================================================================== *)
(** * Auxiliary definitions

    Names for the pieces of text and the side conditions that the facts
    about the json module are stated with. *)

(** The two halves [replace] writes for a character outside the basic
    plane. *)
Definition high_half (c : N) : N :=
  N.lor 55296 (N.land (N.shiftr (c - 65536) 10) 1023).
Definition low_half (c : N) : N :=
  N.lor 56320 (N.land (c - 65536) 1023).

(** What follows a [\uXXXX] escape decides whether it is read on its own. *)
Definition escape_ahead (t : str) : bool :=
  match t with
  | b :: u :: _ => ((b =? BACKSLASH) && (u =? 117))%N
  | _ => false
  end.

(** What can follow an object in the text [iterencode] writes: nothing, the
    item separator, or the newline before a closing bracket. *)
Definition value_end (rest : str) : bool :=
  match rest with
  | [] => true
  | c :: _ => ((c =? 44) || (c =? 10))%N
  end.

(** The first character of an encoded object: one of the letters n, t
    and f, a minus sign, a digit, a double quote, an opening bracket or an
    opening brace. *)
Definition value_start (c : N) : Prop :=
  (c = 110 \/ c = 116 \/ c = 102 \/ c = 45 \/ 48 <= c <= 57
   \/ c = QUOTE \/ c = 91 \/ c = 123)%N.

(** Text whose code points are all below 256, so that none is a
    surrogate. *)
Definition plain_text (s : str) : Prop := Forall (fun c => (c < 256)%N) s.

(** The text [iterencode] writes for one item of a [dict]. *)
Definition item_text (indent level : nat) (kv : str * value) : str :=
  py_encode_basestring_ascii (fst kv) ++ key_separator
  ++ iterencode indent level (snd kv).

(** The items of a non-empty [dict] as [iterencode] writes them, up to
    and including the closing brace, followed by [rest]. *)
Definition items_text (indent level : nat) (items : list (str * value)) (rest : str) : str :=
  join (item_separator ++ newline_indent indent (S level))
       (List.map (item_text indent (S level)) items)
  ++ newline_indent indent level ++ lit "}" ++ rest.

(** The objects that contain no [float]. *)
Fixpoint float_free (v : value) : bool :=
  match v with
  | VFloat _ => false
  | VList items => forallb float_free items
  | VDict items => forallb (fun kv => float_free (snd kv)) items
  | _ => true
  end.

(** A newline or a printable ASCII character, space to tilde. *)
Definition printable (c : N) : Prop := (c = 10 \/ 32 <= c <= 126)%N.

Definition printable_text (s : str) : Prop := Forall printable s.

(** A resource server whose write always raises [e], and leaves its store
    as it was. *)
Definition refusing (e : exn) : Collaborators Server.store unit :=
  {| get_active_project := Server.resolve;
     call_put := fun _ _ w => (w, inl e) |}.

(** A node or an edge as the tool is meant to receive it: a [dict] that
    conforms to its declaration, with distinct keys and well-formed string
    values. *)
Definition typed_item_ok (declared : list (string * field_type)) (v : value) : bool :=
  match v with
  | VDict items =>
      conforms declared v
      && distinct (List.map fst items)
      && forallb (fun kv => match snd kv with VStr s => str_ok s | _ => true end) items
  | _ => false
  end.

(* ================================================================== *)
(** * Facts about strings *)

Lemma eqb_eq (a b : str) : Str.eqb a b = true <-> a = b.
Proof.
  revert b; induction a as [|x a IH]; intros [|y b]; simpl; split;
    try congruence; try reflexivity.
  - intros H. apply andb_true_iff in H as [Hx Hab].
    apply N.eqb_eq in Hx. apply IH in Hab. congruence.
  - intros H. injection H as -> ->. rewrite N.eqb_refl. simpl. now apply IH.
Qed.

Lemma eqb_refl (a : str) : Str.eqb a a = true.
Proof. now apply eqb_eq. Qed.

Lemma eqb_neq (a b : str) : Str.eqb a b = false <-> a <> b.
Proof.
  split.
  - intros H E. apply eqb_eq in E. congruence.
  - intros H. destruct (Str.eqb a b) eqn:E; [|reflexivity].
    apply eqb_eq in E. contradiction.
Qed.

(** [endswith] holds exactly of the strings that are some prefix followed
    by the suffix. *)
Lemma endswith_iff (s suffix : str) :
  endswith s suffix = true <-> exists stem, s = stem ++ suffix.
Proof.
  unfold endswith. rewrite andb_true_iff, Nat.leb_le, eqb_eq. split.
  - intros [_ H]. exists (firstn (length s - length suffix) s).
    rewrite <- H at 2. symmetry. apply firstn_skipn.
  - intros [stem ->]. rewrite length_app. split; [lia|].
    replace (length stem + length suffix - length suffix)%nat
      with (length stem + 0)%nat by lia.
    now rewrite skipn_app, Nat.add_0_r, skipn_all, Nat.sub_diag.
Qed.

(* ================================================================== *)
(** * Facts about the tool *)

Section ToolFacts.

Variables World Context : Type.
Variable interp : Interpreter.
Variable env : Collaborators World Context.
Variables (nodes edges : list value) (title folder : str).
Variables (project : option str) (context : option Context).

(** When [json.dumps] returns, it returns the text of the chunks. *)
Lemma dumps_text (obj : value) (indent : nat) (t : str) :
  dumps interp obj indent = inr t -> t = iterencode indent 0 obj.
Proof.
  unfold dumps.
  destruct (iterencode_error (max_str_digits interp) (encoder_depth interp) obj);
    [discriminate|].
  intros H. now injection H as <-.
Qed.

(** The four points at which an invocation can stop, and what it has
    done when it stops there. *)
Lemma canvas_run (w : World) :
  canvas interp env nodes edges title folder project context w =
  match get_active_project env context project w with
  | (w1, inl e) => {| world := w1; events := []; outcome := inl e |}
  | (w1, inr active_project) =>
      match dumps interp (canvas_data nodes edges) 2 with
      | inl e => {| world := w1; events := []; outcome := inl e |}
      | inr _ =>
          let url := project_url active_project ++ lit "/resource/"
                     ++ file_path folder title in
          let json := VStr (canvas_json nodes edges) in
          let info := Info (lit "Creating canvas file: " ++ file_path folder title) in
          match call_put env url json w1 with
          | (w2, inl e) =>
              {| world := w2; events := [info; Put url json (inl e)];
                 outcome := inl e |}
          | (w2, inr response) =>
              match Response_json interp response with
              | inl e =>
                  {| world := w2; events := [info; Put url json (inr response)];
                     outcome := inl e |}
              | inr result =>
                  {| world := w2;
                     events := [info; Put url json (inr response); Debug result];
                     outcome := inr (join [10%N] (summary response folder title)) |}
              end
          end
      end
  end.
Proof.
  unfold canvas, bind, await_get_active_project, await_call_put,
    logger_info, logger_debug, emit, lift.
  destruct (get_active_project env context project w) as [w1 [e|p]];
    cbn; [reflexivity|].
  destruct (dumps interp (canvas_data nodes edges) 2) as [e|t] eqn:Hd;
    cbn; [reflexivity|].
  apply dumps_text in Hd. subst t. fold (canvas_json nodes edges).
  destruct (call_put env _ _ w1) as [w2 [e|response]]; cbn; [reflexivity|].
  destruct (Response_json interp response); reflexivity.
Qed.

End ToolFacts.

(* ================================================================== *)
(** * Facts about the json module *)

(** ** Escapes *)

Lemma hexval_hexdigit (d : N) : (d < 16)%N -> hexval (hexdigit d) = Some d.
Proof.
  intros H.
  assert (E : In d [0;1;2;3;4;5;6;7;8;9;10;11;12;13;14;15]%N).
  { simpl. lia. }
  simpl in E.
  repeat (destruct E as [<-|E]; [reflexivity|]). contradiction.
Qed.

Lemma decode_format_04x (n : N) (a b c d : N) :
  (n < 65536)%N -> format_04x n = [a; b; c; d] -> decode_uXXXX a b c d = Some n.
Proof.
  intros Hn E. unfold format_04x in E. injection E as <- <- <- <-.
  unfold decode_uXXXX.
  rewrite !hexval_hexdigit by (apply N.mod_lt; lia).
  f_equal.
  change 4096%N with (16 * 16 * 16)%N. change 256%N with (16 * 16)%N.
  rewrite <- !N.Div0.div_div.
  pose proof (N.div_mod' n 16). pose proof (N.div_mod' (n / 16) 16).
  pose proof (N.div_mod' (n / 16 / 16) 16).
  assert (n / 16 / 16 / 16 < 16)%N.
  { rewrite !N.Div0.div_div. apply N.Div0.div_lt_upper_bound. simpl. lia. }
  rewrite (N.mod_small (n / 16 / 16 / 16) 16) by assumption.
  lia.
Qed.

(** ** Surrogate pairs *)

Lemma lor_shiftl_low (a y n : N) :
  (y < 2 ^ n)%N -> N.lor (N.shiftl a n) y = (a * 2 ^ n + y)%N.
Proof.
  intros Hy.
  assert (Z0 : N.land (N.shiftl a n) y = 0%N).
  { apply N.bits_inj. intros i. rewrite N.land_spec, N.bits_0.
    destruct (N.lt_ge_cases i n) as [Hi|Hi].
    - now rewrite N.shiftl_spec_low.
    - rewrite <- (N.mod_small y (2 ^ n)) by assumption.
      rewrite N.mod_pow2_bits_high by assumption. apply andb_false_r. }
  rewrite <- N.lxor_lor, <- N.add_nocarry_lxor by assumption.
  now rewrite N.shiftl_mul_pow2.
Qed.

Lemma high_half_eq (c : N) :
  (65536 <= c < max_code_point)%N -> high_half c = (55296 + (c - 65536) / 1024)%N.
Proof.
  unfold max_code_point, high_half. intros Hc.
  change 1023%N with (N.ones 10). change 55296%N with (N.shiftl 54 10).
  rewrite N.land_ones, N.shiftr_div_pow2. change (2 ^ 10)%N with 1024%N.
  assert ((c - 65536) / 1024 < 1024)%N.
  { apply N.Div0.div_lt_upper_bound. lia. }
  rewrite N.mod_small by assumption.
  rewrite lor_shiftl_low by assumption. reflexivity.
Qed.

Lemma low_half_eq (c : N) :
  low_half c = (56320 + (c - 65536) mod 1024)%N.
Proof.
  unfold low_half.
  change 1023%N with (N.ones 10). change 56320%N with (N.shiftl 55 10).
  rewrite N.land_ones. change (2 ^ 10)%N with 1024%N.
  rewrite lor_shiftl_low by (apply N.mod_lt; lia). reflexivity.
Qed.

Lemma join_surrogates_eq (uni uni2 : N) :
  (55296 <= uni)%N -> (56320 <= uni2 < 57344)%N ->
  join_surrogates uni uni2 = (65536 + (uni - 55296) * 1024 + (uni2 - 56320))%N.
Proof.
  intros H1 H2. unfold join_surrogates.
  rewrite lor_shiftl_low by (change (2 ^ 10)%N with 1024%N; lia).
  change (2 ^ 10)%N with 1024%N. lia.
Qed.

Lemma surrogate_halves (c : N) :
  (65536 <= c < max_code_point)%N ->
  (55296 <= high_half c < 56320)%N /\ (56320 <= low_half c < 57344)%N /\
  join_surrogates (high_half c) (low_half c) = c.
Proof.
  intros Hc. pose proof (high_half_eq Hc) as Eh. pose proof (low_half_eq c) as El.
  unfold max_code_point in Hc.
  assert ((c - 65536) / 1024 < 1024)%N by (apply N.Div0.div_lt_upper_bound; lia).
  assert ((c - 65536) mod 1024 < 1024)%N by (apply N.mod_lt; lia).
  pose proof (N.div_mod' (c - 65536) 1024) as E.
  revert Eh El E H H0.
  generalize ((c - 65536) / 1024)%N ((c - 65536) mod 1024)%N. intros q r Eh El E Hq Hr.
  split; [lia|]. split; [lia|].
  rewrite join_surrogates_eq by lia. lia.
Qed.


(** ** Strings *)

Lemma scanstring_plain (c : N) (t : str) :
  c <> QUOTE -> c <> BACKSLASH -> (32 <= c)%N ->
  scanstring (c :: t) = push c (scanstring t).
Proof.
  intros Hq Hb Hc. cbn [scanstring].
  apply N.eqb_neq in Hq, Hb. rewrite Hq, Hb.
  destruct (N.ltb_spec c 32); [lia|reflexivity].
Qed.

Lemma scanstring_short (esc ch : N) (t : str) :
  esc <> 117%N -> backslash_char esc = Some ch ->
  scanstring (BACKSLASH :: esc :: t) = push ch (scanstring t).
Proof.
  intros Hu Hb. cbn [scanstring]. change (BACKSLASH =? QUOTE)%N with false.
  change (BACKSLASH =? BACKSLASH)%N with true. cbv iota.
  apply N.eqb_neq in Hu. rewrite Hu, Hb. reflexivity.
Qed.

Lemma scanstring_u_alone (n : N) (t : str) :
  (n < 65536)%N -> is_high_surrogate n && escape_ahead t = false ->
  scanstring (u_escape n ++ t) = push n (scanstring t).
Proof.
  intros Hn Hal. unfold u_escape.
  destruct (format_04x n) as [|a [|b [|c [|d [|]]]]] eqn:E; try discriminate E.
  pose proof (decode_format_04x Hn E) as D.
  cbn [app scanstring]. change (BACKSLASH =? QUOTE)%N with false.
  change (BACKSLASH =? BACKSLASH)%N with true. change (117 =? 117)%N with true.
  cbv iota. rewrite D.
  destruct t as [|b1 [|u1 [|e [|f [|g [|h s4]]]]]]; try reflexivity;
    cbn [escape_ahead] in Hal; rewrite <- andb_assoc, Hal; reflexivity.
Qed.

Lemma scanstring_u_then (n m : N) (t : str) :
  (n < 65536)%N -> (m < 65536)%N -> is_low_surrogate m = false ->
  scanstring (u_escape n ++ u_escape m ++ t)
  = push n (scanstring (u_escape m ++ t)).
Proof.
  intros Hn Hm Hlow. unfold u_escape at 1.
  destruct (format_04x n) as [|a [|b [|c [|d [|]]]]] eqn:E; try discriminate E.
  pose proof (decode_format_04x Hn E) as D.
  unfold u_escape.
  destruct (format_04x m) as [|a' [|b' [|c' [|d' [|]]]]] eqn:E'; try discriminate E'.
  pose proof (decode_format_04x Hm E') as D'.
  cbn [app]. 
  set (tail := BACKSLASH :: 117%N :: a' :: b' :: c' :: d' :: t).
  cbn [scanstring]. change (BACKSLASH =? QUOTE)%N with false.
  change (BACKSLASH =? BACKSLASH)%N with true. change (117 =? 117)%N with true.
  cbv iota. rewrite D. subst tail. cbv iota. cbv beta.
  change (BACKSLASH =? BACKSLASH)%N with true. change (117 =? 117)%N with true.
  rewrite D', Hlow. rewrite !andb_true_r.
  destruct (is_high_surrogate n); reflexivity.
Qed.

Lemma scanstring_u_pair (n m : N) (t : str) :
  (n < 65536)%N -> (m < 65536)%N ->
  is_high_surrogate n = true -> is_low_surrogate m = true ->
  scanstring (u_escape n ++ u_escape m ++ t)
  = push (join_surrogates n m) (scanstring t).
Proof.
  intros Hn Hm Hhigh Hlow. unfold u_escape.
  destruct (format_04x n) as [|a [|b [|c [|d [|]]]]] eqn:E; try discriminate E.
  pose proof (decode_format_04x Hn E) as D.
  destruct (format_04x m) as [|a' [|b' [|c' [|d' [|]]]]] eqn:E'; try discriminate E'.
  pose proof (decode_format_04x Hm E') as D'.
  cbn [app scanstring]. change (BACKSLASH =? QUOTE)%N with false.
  change (BACKSLASH =? BACKSLASH)%N with true. change (117 =? 117)%N with true.
  cbv iota. rewrite D, D', Hhigh, Hlow. reflexivity.
Qed.

Lemma replace_cases (c : N) :
  (c < max_code_point)%N ->
  (replace c = [c] /\ c <> QUOTE /\ c <> BACKSLASH /\ (32 <= c)%N)
  \/ (exists esc, replace c = [BACKSLASH; esc] /\ esc <> 117%N
                  /\ backslash_char esc = Some c)
  \/ (replace c = u_escape c /\ (c < 65536)%N)
  \/ ((65536 <= c)%N /\ replace c = u_escape (high_half c) ++ u_escape (low_half c)).
Proof.
  intros Hc. unfold replace.
  destruct (N.eqb_spec c BACKSLASH) as [->|Hb].
  { right; left. exists BACKSLASH. repeat split. discriminate. }
  destruct (N.eqb_spec c QUOTE) as [->|Hq].
  { right; left. exists QUOTE. repeat split. discriminate. }
  destruct (N.eqb_spec c 8) as [->|H8].
  { right; left. exists 98%N. repeat split. discriminate. }
  destruct (N.eqb_spec c 12) as [->|H12].
  { right; left. exists 102%N. repeat split. discriminate. }
  destruct (N.eqb_spec c 10) as [->|H10].
  { right; left. exists 110%N. repeat split. discriminate. }
  destruct (N.eqb_spec c 13) as [->|H13].
  { right; left. exists 114%N. repeat split. discriminate. }
  destruct (N.eqb_spec c 9) as [->|H9].
  { right; left. exists 116%N. repeat split. discriminate. }
  destruct (N.leb_spec 32 c); cbn [andb].
  - destruct (N.leb_spec c 126).
    + left. repeat split; assumption.
    + destruct (N.ltb_spec c 65536).
      * right; right; left. split; [reflexivity|assumption].
      * right; right; right. split; [assumption|reflexivity].
  - right; right; left. destruct (N.ltb_spec c 65536); [|lia].
    split; [reflexivity|assumption].
Qed.

Lemma escape_ahead_plain (c : N) (t : str) :
  c <> BACKSLASH -> escape_ahead (c :: t) = false.
Proof.
  intros H. apply N.eqb_neq in H. destruct t; cbn [escape_ahead];
    [reflexivity | now rewrite H].
Qed.

(** A [\uXXXX] escape written for one character is read back as that
    character, whatever escaped text follows it, unless the character is a
    high surrogate and the next one a low surrogate. *)
Lemma scanstring_u_escaped (c : N) (s : str) (rest : str) :
  (c < 65536)%N ->
  is_high_surrogate c && low_surrogate_next s = false ->
  match s with c2 :: _ => (c2 <? max_code_point)%N | [] => true end = true ->
  scanstring (u_escape c ++ flat_map replace s ++ QUOTE :: rest)
  = push c (scanstring (flat_map replace s ++ QUOTE :: rest)).
Proof.
  intros Hc Hpair Hrange.
  destruct (is_high_surrogate c) eqn:Hhigh;
    [|apply scanstring_u_alone; [assumption | now rewrite Hhigh]].
  cbn [andb] in Hpair.
  destruct s as [|c2 s'].
  { apply scanstring_u_alone; [assumption|]. rewrite Hhigh.
    cbn [flat_map app]. now rewrite escape_ahead_plain by discriminate. }
  cbn [low_surrogate_next] in Hpair. apply N.ltb_lt in Hrange.
  cbn [flat_map]. rewrite <- app_assoc.
  destruct (replace_cases Hrange)
    as [(E & Hq & Hb & _) | [(esc & E & Hu & _) | [(E & Hlt) | (Hge & E)]]];
    rewrite E.
  - apply scanstring_u_alone; [assumption|]. rewrite Hhigh.
    cbn [app]. now rewrite escape_ahead_plain.
  - apply scanstring_u_alone; [assumption|]. rewrite Hhigh.
    cbn [app escape_ahead]. apply N.eqb_neq in Hu. now rewrite Hu.
  - now apply scanstring_u_then.
  - rewrite <- app_assoc.
    assert (Hmax : (65536 <= c2 < max_code_point)%N) by lia.
    destruct (surrogate_halves Hmax) as (Hh & _ & _).
    apply scanstring_u_then; [assumption | lia |].
    unfold is_low_surrogate. destruct (N.leb_spec 56320 (high_half c2)); [lia|reflexivity].
Qed.

(** [scanstring] inverts the escaping of [py_encode_basestring_ascii]. *)
Lemma scanstring_escaped (s rest : str) :
  str_ok s = true ->
  scanstring (flat_map replace s ++ QUOTE :: rest) = Some (s, rest).
Proof.
  induction s as [|c s IH]; intros Hok.
  - cbn [flat_map app scanstring]. reflexivity.
  - cbn [str_ok] in Hok. apply andb_true_iff in Hok as [Hok Hs].
    apply andb_true_iff in Hok as [Hc Hpair].
    apply negb_true_iff in Hpair. apply N.ltb_lt in Hc.
    specialize (IH Hs). cbn [flat_map]. rewrite <- app_assoc.
    assert (Hnext : match s with c2 :: _ => (c2 <? max_code_point)%N | [] => true end = true).
    { destruct s as [|c2 s']; [reflexivity|]. cbn [str_ok] in Hs.
      apply andb_true_iff in Hs as [Hs _]. now apply andb_true_iff in Hs as [Hs _]. }
    destruct (replace_cases Hc)
      as [(E & Hq & Hb & H32) | [(esc & E & Hu & Hbs) | [(E & Hlt) | (Hge & E)]]];
      rewrite E.
    + cbn [app]. rewrite scanstring_plain, IH by assumption. reflexivity.
    + cbn [app]. rewrite (scanstring_short _ Hu Hbs), IH. reflexivity.
    + rewrite scanstring_u_escaped, IH by assumption. reflexivity.
    + rewrite <- app_assoc.
      assert (Hmax : (65536 <= c < max_code_point)%N) by lia.
      destruct (surrogate_halves Hmax) as (Hh & Hl & Hj).
      rewrite scanstring_u_pair, IH, Hj; try lia; try reflexivity.
      * unfold is_high_surrogate.
        destruct (N.leb_spec 55296 (high_half c)), (N.leb_spec (high_half c) 56319);
          try lia; reflexivity.
      * unfold is_low_surrogate.
        destruct (N.leb_spec 56320 (low_half c)), (N.leb_spec (low_half c) 57343);
          try lia; reflexivity.
Qed.

(** ** Integers *)

Lemma value_end_cases (rest : str) :
  value_end rest = true ->
  rest = [] \/ exists c t, rest = c :: t /\ (c = 44 \/ c = 10)%N.
Proof.
  destruct rest as [|c t]; [now left|]. cbn. intros H. right. exists c, t.
  split; [reflexivity|]. apply orb_true_iff in H as [H|H]; apply N.eqb_eq in H; auto.
Qed.

Lemma take_digits_chars (u : Decimal.uint) (rest : str) :
  value_end rest = true -> take_digits (uint_chars u ++ rest) = (u, rest).
Proof.
  intros Hend.
  induction u; cbn [uint_chars app take_digits];
    try (change (digit_of_char (digit_char 0)) with (Some Decimal.D0));
    try (change (digit_of_char (digit_char 1)) with (Some Decimal.D1));
    try (change (digit_of_char (digit_char 2)) with (Some Decimal.D2));
    try (change (digit_of_char (digit_char 3)) with (Some Decimal.D3));
    try (change (digit_of_char (digit_char 4)) with (Some Decimal.D4));
    try (change (digit_of_char (digit_char 5)) with (Some Decimal.D5));
    try (change (digit_of_char (digit_char 6)) with (Some Decimal.D6));
    try (change (digit_of_char (digit_char 7)) with (Some Decimal.D7));
    try (change (digit_of_char (digit_char 8)) with (Some Decimal.D8));
    try (change (digit_of_char (digit_char 9)) with (Some Decimal.D9));
    try (rewrite IHu; reflexivity).
  destruct (value_end_cases _ Hend) as [->|(c & t & -> & [->| ->])]; reflexivity.
Qed.

Lemma to_uint_normal (p : positive) : Decimal.unorm (Pos.to_uint p) = Pos.to_uint p.
Proof.
  rewrite <- DecimalPos.Unsigned.to_of, DecimalPos.Unsigned.of_to. reflexivity.
Qed.

(** The numeral of a positive number starts with a digit other than zero. *)
Lemma to_uint_head (p : positive) :
  exists c t, uint_chars (Pos.to_uint p) = c :: t /\ (49 <= c <= 57)%N.
Proof.
  pose proof (to_uint_normal p) as Hn.
  pose proof (DecimalPos.Unsigned.to_uint_nonnil p) as Hnil.
  pose proof (DecimalPos.Unsigned.to_uint_nonzero p) as Hz.
  destruct (Pos.to_uint p) as [|u|u|u|u|u|u|u|u|u|u];
    try (eexists; eexists; split; [reflexivity | cbv; split; discriminate]).
  - contradiction.
  - exfalso. rewrite DecimalFacts.unorm_D0 in Hn.
    assert (Hu : u = Decimal.Nil \/ u <> Decimal.Nil)
      by (destruct u; [now left | right; discriminate ..]).
    destruct Hu as [->|Hu]; [apply Hz; reflexivity|].
    pose proof (DecimalFacts.nb_digits_unorm u Hu) as Hlen.
    rewrite Hn in Hlen. cbn in Hlen. lia.
Qed.

Lemma match_frac_end (rest : str) : value_end rest = true -> match_frac rest = ([], rest).
Proof.
  intros H. destruct (value_end_cases _ H) as [->|(c & t & -> & [->| ->])]; reflexivity.
Qed.

Lemma match_exp_end (rest : str) : value_end rest = true -> match_exp rest = ([], rest).
Proof.
  intros H. destruct (value_end_cases _ H) as [->|(c & t & -> & [->| ->])]; reflexivity.
Qed.

Lemma match_digits_positive (p : positive) (rest : str) :
  value_end rest = true ->
  match_digits (uint_chars (Pos.to_uint p) ++ rest) = Some (Pos.to_uint p, rest).
Proof.
  intros Hend. rewrite <- (take_digits_chars (Pos.to_uint p) _ Hend).
  destruct (to_uint_head p) as (c & t & -> & Hc). cbn [app match_digits].
  destruct (N.eqb_spec c 48); [lia|].
  destruct (N.leb_spec 49 c), (N.leb_spec c 57); try lia. reflexivity.
Qed.

(** [match_number] reads back the numeral of an integer, and [int]
    accepts it exactly when it has no more digits than the limit. *)
Lemma match_number_numeral (limit : nat) (n : Z) (rest : str) :
  value_end rest = true ->
  match_number limit (numeral n ++ rest)
  = Some (if exceeds limit (digits n) then inl ValueError else inr (VInt n, rest)).
Proof.
  intros Hend. unfold numeral, digits.
  rewrite <- (DecimalZ.of_to n) at 3.
  destruct n as [|p|p]; cbn [Z.to_int].
  - unfold match_number. cbn [uint_chars app].
    change (digit_char 0 =? 45)%N with false. cbv iota.
    cbn [match_digits]. change (digit_char 0 =? 48)%N with true. cbv iota.
    rewrite match_frac_end, match_exp_end by assumption. unfold parse_int.
    destruct (exceeds limit _); reflexivity.
  - unfold match_number.
    destruct (to_uint_head p) as (c & t & E & Hc).
    assert (Hs : uint_chars (Pos.to_uint p) ++ rest = c :: t ++ rest) by now rewrite E.
    rewrite Hs. destruct (N.eqb_spec c 45); [lia|]. rewrite <- Hs.
    rewrite match_digits_positive, match_frac_end, match_exp_end by assumption.
    unfold parse_int. destruct (exceeds limit _); reflexivity.
  - unfold match_number. cbn [app]. change (45 =? 45)%N with true. cbv iota.
    rewrite match_digits_positive, match_frac_end, match_exp_end by assumption.
    unfold parse_int. destruct (exceeds limit _); reflexivity.
Qed.

(** ** Layout *)

Lemma join_cons (sep x : str) (l : list str) :
  l <> [] -> join sep (x :: l) = x ++ sep ++ join sep l.
Proof. destruct l; [contradiction|reflexivity]. Qed.

Lemma join_length_item (sep : str) (l : list str) (x : str) :
  In x l -> (length x <= length (join sep l))%nat.
Proof.
  induction l as [|y l IH]; [contradiction|]. intros [->|Hin].
  - destruct l; cbn [join]; rewrite ?length_app; lia.
  - specialize (IH Hin). destruct l; [contradiction|].
    rewrite join_cons by discriminate. rewrite !length_app. lia.
Qed.

Lemma join_length_count (sep : str) (l : list str) :
  (1 <= length sep)%nat -> (length l <= S (length (join sep l)))%nat.
Proof.
  intros Hsep. induction l as [|y l IH]; [cbn; lia|].
  destruct l; [cbn; lia|]. rewrite join_cons by discriminate.
  rewrite !length_app. cbn [length] in *. lia.
Qed.

Lemma skip_ws_stop (c : N) (t : str) : is_ws c = false -> skip_ws (c :: t) = c :: t.
Proof. intros H. cbn [skip_ws]. now rewrite H. Qed.

Lemma skip_ws_spaces (n : nat) (t : str) : skip_ws (times 32%N n ++ t) = skip_ws t.
Proof. induction n; [reflexivity|]. cbn [times repeat app skip_ws]. exact IHn. Qed.

Lemma skip_ws_newline_indent (indent level : nat) (t : str) :
  skip_ws (newline_indent indent level ++ t) = skip_ws t.
Proof. unfold newline_indent. cbn [app skip_ws]. apply skip_ws_spaces. Qed.

Lemma numeral_head (n : Z) :
  exists c t, numeral n = c :: t /\ (c = 45 \/ 48 <= c <= 57)%N.
Proof.
  unfold numeral. destruct n as [|p|p]; cbn [Z.to_int].
  - exists 48%N, []. split; [reflexivity|]. lia.
  - destruct (to_uint_head p) as (c & t & -> & Hc). exists c, t.
    split; [reflexivity|]. lia.
  - eexists; eexists. split; [reflexivity|]. now left.
Qed.

Lemma iterencode_head (indent level : nat) (v : value) :
  value_ok v = true ->
  exists c t, iterencode indent level v = c :: t /\ value_start c.
Proof.
  unfold value_start, QUOTE.
  destruct v as [|[|]|n|f|s|[|x items]|[|kv items]]; intros Hok;
    try discriminate Hok;
    try (cbn; eexists; eexists; split; [reflexivity|]; lia).
  - destruct (numeral_head n) as (c & t & E & Hc).
    exists c, t. split; [exact E|]. lia.
  - exists 34%N, (flat_map replace s ++ [QUOTE]). split; [reflexivity|]. lia.
Qed.

Lemma value_start_not_ws (c : N) : value_start c -> is_ws c = false.
Proof.
  unfold value_start, QUOTE, is_ws. intros H.
  destruct (N.eqb_spec c 32), (N.eqb_spec c 9), (N.eqb_spec c 10), (N.eqb_spec c 13);
    try reflexivity; lia.
Qed.

Lemma skip_ws_iterencode (indent level : nat) (v : value) (t : str) :
  value_ok v = true ->
  skip_ws (iterencode indent level v ++ t) = iterencode indent level v ++ t.
Proof.
  intros Hok. destruct (iterencode_head indent level v Hok) as (c & r & -> & Hc).
  cbn [app]. apply skip_ws_stop. now apply value_start_not_ws.
Qed.

(** ** Dictionaries *)

Lemma distinct_NoDup (keys : list str) : distinct keys = true -> NoDup keys.
Proof.
  induction keys as [|k keys IH]; intros H; [constructor|].
  cbn [distinct] in H. apply andb_true_iff in H as [Hk Hks].
  constructor; [|now apply IH].
  intros Hin. apply negb_true_iff in Hk.
  assert (E : existsb (Str.eqb k) keys = true).
  { apply existsb_exists. exists k. split; [assumption|apply eqb_refl]. }
  congruence.
Qed.

Lemma setitem_fresh (d : list (str * value)) (key : str) (v : value) :
  ~ In key (List.map fst d) -> setitem d key v = d ++ [(key, v)].
Proof.
  induction d as [|[k w] d IH]; intros Hin; [reflexivity|].
  cbn [setitem]. cbn [List.map fst In] in Hin.
  destruct (Str.eqb k key) eqn:E.
  - apply eqb_eq in E. tauto.
  - cbn [app]. rewrite IH by tauto. reflexivity.
Qed.

Lemma fold_setitem (items d : list (str * value)) :
  NoDup (List.map fst (d ++ items)) ->
  fold_left (fun d kv => setitem d (fst kv) (snd kv)) items d = d ++ items.
Proof.
  revert d. induction items as [|[k v] items IH]; intros d Hnd.
  - now rewrite app_nil_r.
  - cbn [fold_left fst snd]. rewrite setitem_fresh.
    + rewrite IH; rewrite <- app_assoc; [reflexivity|exact Hnd].
    + rewrite map_app in Hnd. cbn [List.map fst] in Hnd.
      apply NoDup_remove_2 in Hnd. intros Hin. apply Hnd.
      apply in_or_app. now left.
Qed.

(** Building a [dict] from pairs whose keys are distinct keeps the pairs
    and their order. *)
Lemma dict_of_pairs_distinct (items : list (str * value)) :
  distinct (List.map fst items) = true -> dict_of_pairs items = items.
Proof.
  intros H. unfold dict_of_pairs. rewrite fold_setitem; [reflexivity|].
  now apply distinct_NoDup.
Qed.

(** ** Containers *)

Lemma skip_ws_join (indent level : nat) (sep : str) (items : list value) (t : str) :
  items <> [] -> (forall x, In x items -> value_ok x = true) ->
  skip_ws (join sep (List.map (iterencode indent level) items) ++ t)
  = join sep (List.map (iterencode indent level) items) ++ t.
Proof.
  intros Hne Hok. destruct items as [|x items]; [contradiction|].
  assert (Hx : value_ok x = true) by (apply Hok; now left).
  destruct items as [|y items]; cbn [List.map].
  - cbn [join]. now apply skip_ws_iterencode.
  - rewrite join_cons by discriminate. rewrite <- app_assoc.
    now apply skip_ws_iterencode.
Qed.

Ltac skip_indent :=
  first [ rewrite skip_ws_newline_indent
        | change (skip_ws (10%N :: ?t)) with (skip_ws t); rewrite skip_ws_spaces ].

Lemma value_end_newline_indent (indent level : nat) (t : str) :
  value_end (newline_indent indent level ++ t) = true.
Proof. reflexivity. Qed.

Lemma array_loop_items (scan : str -> exn + value * str) (indent level : nat)
    (items : list value) (rest : str) :
  (forall x r, In x items -> value_end r = true ->
     scan (iterencode indent (S level) x ++ r) = inr (x, r)) ->
  (forall x, In x items -> value_ok x = true) ->
  items <> [] ->
  forall n, (length items <= n)%nat ->
  array_loop scan n
    (join (item_separator ++ newline_indent indent (S level))
          (List.map (iterencode indent (S level)) items)
     ++ newline_indent indent level ++ lit "]" ++ rest)
  = inr (items, rest).
Proof.
  induction items as [|x items IH]; intros Hscan Hok Hne n Hn; [contradiction|].
  destruct n as [|n]; [cbn in Hn; lia|].
  destruct items as [|y items].
  - cbn [List.map join array_loop].
    rewrite Hscan by (try apply value_end_newline_indent; now left).
    rewrite skip_ws_newline_indent. reflexivity.
  - cbn [List.map]. rewrite join_cons by discriminate.
    rewrite <- !app_assoc. cbn [array_loop].
    rewrite Hscan by (try reflexivity; now left).
    change (item_separator ++ ?t) with (44%N :: t).
    rewrite skip_ws_stop by reflexivity.
    change (44 =? 93)%N with false. change (44 =? 44)%N with true. cbv iota.
    rewrite skip_ws_newline_indent.
    change (iterencode indent (S level) y :: List.map (iterencode indent (S level)) items)
      with (List.map (iterencode indent (S level)) (y :: items)).
    rewrite skip_ws_join;
      [| discriminate | intros z Hz; apply Hok; now right].
    rewrite IH; [reflexivity | | | discriminate |].
    + intros z r Hz Hr. apply Hscan; [now right|assumption].
    + intros z Hz. apply Hok. now right.
    + cbn [length] in *. lia.
Qed.

Lemma item_text_eq (indent level : nat) (k : str) (v : value) (t : str) :
  item_text indent level (k, v) ++ t
  = QUOTE :: flat_map replace k
    ++ QUOTE :: 58%N :: 32%N :: iterencode indent level v ++ t.
Proof.
  unfold item_text, py_encode_basestring_ascii. cbn [fst snd app].
  rewrite <- !app_assoc. reflexivity.
Qed.

Lemma items_text_cons (indent level : nat) (k : str) (v : value)
    (items : list (str * value)) (rest : str) :
  items_text indent level ((k, v) :: items) rest
  = QUOTE :: flat_map replace k
    ++ QUOTE :: 58%N :: 32%N :: iterencode indent (S level) v
    ++ match items with
       | [] => newline_indent indent level ++ lit "}" ++ rest
       | _ :: _ => 44%N :: newline_indent indent (S level)
                   ++ items_text indent level items rest
       end.
Proof.
  unfold items_text. destruct items as [|kv items].
  - cbn [List.map join]. apply item_text_eq.
  - cbn [List.map]. rewrite join_cons by discriminate.
    rewrite <- !app_assoc. rewrite item_text_eq. reflexivity.
Qed.

Lemma items_text_head (indent level : nat) (items : list (str * value)) (rest : str) :
  items <> [] ->
  items_text indent level items rest = QUOTE :: tl (items_text indent level items rest).
Proof.
  destruct items as [|[k v] items]; [contradiction|]. intros _.
  rewrite items_text_cons. reflexivity.
Qed.

Lemma object_loop_items (scan : str -> exn + value * str) (indent level : nat)
    (items : list (str * value)) (rest : str) :
  (forall kv r, In kv items -> value_end r = true ->
     scan (iterencode indent (S level) (snd kv) ++ r) = inr (snd kv, r)) ->
  (forall kv, In kv items -> str_ok (fst kv) = true /\ value_ok (snd kv) = true) ->
  items <> [] ->
  forall n, (length items <= n)%nat ->
  object_loop scan n (tl (items_text indent level items rest)) = inr (items, rest).
Proof.
  induction items as [|[k v] items IH]; intros Hscan Hok Hne n Hn; [contradiction|].
  destruct n as [|n]; [cbn in Hn; lia|].
  destruct (Hok (k, v) (or_introl eq_refl)) as [Hk Hv]. cbn [fst snd] in Hk, Hv.
  rewrite items_text_cons. cbn [tl object_loop].
  rewrite scanstring_escaped by assumption.
  rewrite skip_ws_stop by reflexivity.
  change (58 =? 58)%N with true. cbv iota.
  change (skip_ws (32%N :: ?t)) with (skip_ws t).
  rewrite skip_ws_iterencode by assumption.
  destruct items as [|kv items].
  - rewrite (Hscan (k, v)) by (try apply value_end_newline_indent; now left).
    skip_indent. reflexivity.
  - rewrite (Hscan (k, v)) by (try reflexivity; now left).
    rewrite skip_ws_stop by reflexivity.
    change (44 =? 125)%N with false. change (44 =? 44)%N with true. cbv iota.
    skip_indent. rewrite items_text_head by discriminate.
    rewrite skip_ws_stop by reflexivity.
    change (QUOTE =? QUOTE)%N with true. cbv iota.
    rewrite IH; [reflexivity | | | discriminate | ].
    + intros z r Hz Hr. apply Hscan; [now right|assumption].
    + intros z Hz. apply Hok. now right.
    + cbn [length] in *. lia.
Qed.

Lemma iterencode_list (indent level : nat) (x : value) (items : list value) (rest : str) :
  iterencode indent level (VList (x :: items)) ++ rest
  = 91%N :: newline_indent indent (S level)
    ++ (join (item_separator ++ newline_indent indent (S level))
             (List.map (iterencode indent (S level)) (x :: items))
        ++ newline_indent indent level ++ lit "]" ++ rest).
Proof. cbn [iterencode]. rewrite <- !app_assoc. reflexivity. Qed.

Lemma iterencode_dict (indent level : nat) (kv : str * value)
    (items : list (str * value)) (rest : str) :
  iterencode indent level (VDict (kv :: items)) ++ rest
  = 123%N :: newline_indent indent (S level)
    ++ items_text indent level (kv :: items) rest.
Proof. cbn [iterencode]. unfold items_text. rewrite <- !app_assoc. reflexivity. Qed.

Lemma JSONArray_items (scan : str -> exn + value * str) (n : nat)
    (indent level : nat) (s : str) :
  (exists c r, s = c :: r /\ value_start c) ->
  JSONArray scan n (newline_indent indent level ++ s)
  = match array_loop scan n s with
    | inr (vs, r') => inr (VList vs, r')
    | inl e => inl e
    end.
Proof.
  intros (c & r & -> & Hc). unfold JSONArray. skip_indent.
  rewrite skip_ws_stop by now apply value_start_not_ws.
  destruct (N.eqb_spec c 93) as [->|_]; [|reflexivity].
  unfold value_start, QUOTE in Hc. lia.
Qed.

Lemma JSONObject_items (scan : str -> exn + value * str) (n : nat)
    (indent level : nat) (text : str) :
  JSONObject scan n (newline_indent indent level ++ QUOTE :: text)
  = match object_loop scan n text with
    | inr (pairs, r') => inr (VDict (dict_of_pairs pairs), r')
    | inl e => inl e
    end.
Proof. unfold JSONObject. skip_indent. reflexivity. Qed.

(** ** Objects *)

Lemma length_iterencode_item (indent level : nat) (x : value) (items : list value) :
  In x items ->
  (S (length (iterencode indent (S level) x))
   <= length (iterencode indent level (VList items)))%nat.
Proof.
  intros Hin. destruct items as [|y items]; [contradiction|].
  cbn [iterencode]. rewrite !length_app. cbn [lit length List.map list_ascii_of_string].
  pose proof (join_length_item (item_separator ++ newline_indent indent (S level))
                (List.map (iterencode indent (S level)) (y :: items))
                (iterencode indent (S level) x) (in_map _ _ _ Hin)) as H.
  cbn [List.map] in H. lia.
Qed.

Lemma length_iterencode_items (indent level : nat) (items : list value) :
  (S (length items) <= length (iterencode indent level (VList items)))%nat.
Proof.
  destruct items as [|y items]; [cbn; lia|].
  cbn [iterencode].
  set (sep := item_separator ++ newline_indent indent (S level)).
  assert (Hsep : (1 <= length sep)%nat) by (subst sep; rewrite length_app; cbn; lia).
  pose proof (@join_length_count sep (List.map (iterencode indent (S level)) (y :: items)) Hsep) as H.
  rewrite length_map in H. rewrite !length_app.
  cbn [lit length List.map list_ascii_of_string] in *. unfold str in *. lia.
Qed.

Lemma length_iterencode_value (indent level : nat) (kv : str * value)
    (items : list (str * value)) :
  In kv items ->
  (S (length (iterencode indent (S level) (snd kv)))
   <= length (iterencode indent level (VDict items)))%nat.
Proof.
  intros Hin. destruct items as [|y items]; [contradiction|].
  cbn [iterencode].
  change (fun kv0 : str * value =>
            py_encode_basestring_ascii (fst kv0) ++ key_separator
            ++ iterencode indent (S level) (snd kv0))
    with (item_text indent (S level)).
  set (sep := item_separator ++ newline_indent indent (S level)).
  set (l := List.map (item_text indent (S level)) (y :: items)).
  pose proof (join_length_item sep l (item_text indent (S level) kv)
                (in_map _ _ _ Hin)) as H.
  unfold item_text at 1 in H. rewrite !length_app in H. rewrite !length_app.
  subst l. cbn [lit length List.map list_ascii_of_string] in *.
  unfold str in *. lia.
Qed.

Lemma length_iterencode_pairs (indent level : nat) (items : list (str * value)) :
  (S (length items) <= length (iterencode indent level (VDict items)))%nat.
Proof.
  destruct items as [|y items]; [cbn; lia|].
  cbn [iterencode].
  change (fun kv0 : str * value =>
            py_encode_basestring_ascii (fst kv0) ++ key_separator
            ++ iterencode indent (S level) (snd kv0))
    with (item_text indent (S level)).
  set (sep := item_separator ++ newline_indent indent (S level)).
  assert (Hsep : (1 <= length sep)%nat) by (subst sep; rewrite length_app; cbn; lia).
  pose proof (@join_length_count sep (List.map (item_text indent (S level)) (y :: items)) Hsep) as H.
  rewrite length_map in H. rewrite !length_app.
  cbn [lit length List.map list_ascii_of_string] in *. unfold str in *. lia.
Qed.

Lemma join_head (indent level : nat) (sep : str) (x : value) (items : list value)
    (t : str) :
  value_ok x = true ->
  exists c r,
    join sep (List.map (iterencode indent level) (x :: items)) ++ t = c :: r
    /\ value_start c.
Proof.
  intros Hx. destruct (iterencode_head indent level x Hx) as (c & r & E & Hc).
  destruct items as [|y items]; cbn [List.map].
  - cbn [join]. rewrite E. eexists; eexists. split; [reflexivity|assumption].
  - rewrite join_cons by discriminate. rewrite E. eexists; eexists.
    split; [reflexivity|assumption].
Qed.

(** An item of a container is nested less deeply than the container. *)
Lemma nesting_item (A : Type) (f : A -> nat) (x : A) (items : list A) :
  In x items -> (f x <= list_max (List.map f items))%nat.
Proof.
  unfold list_max. induction items as [|y items IH]; [contradiction|].
  cbn [List.map fold_right]. intros [->|Hin]; [lia|]. specialize (IH Hin). lia.
Qed.

(** [scan_once] reads back what [iterencode] writes, at any indentation
    and nesting level, and leaves the text that follows untouched,
    provided the integers of the object are within the limit on integer
    strings and the object is nested no deeper than the decoder can go. *)
Lemma scan_once_iterencode (limit fuel : nat) :
  forall (v : value) (depth indent level : nat) (rest : str),
    (length (iterencode indent level v) <= fuel)%nat ->
    value_ok v = true -> ints_within limit v = true -> (nesting v <= depth)%nat ->
    value_end rest = true ->
    scan_once limit depth fuel (iterencode indent level v ++ rest) = inr (v, rest).
Proof.
  induction fuel as [|fuel IH]; intros v depth indent level rest Hlen Hok Hint Hdepth Hend.
  { destruct (iterencode_head indent level v Hok) as (c & t & E & _).
    rewrite E in Hlen. cbn in Hlen. lia. }
  destruct v as [|[|]|n|f|s|items|items].
  - reflexivity.
  - reflexivity.
  - reflexivity.
  - cbn [iterencode]. pose proof (match_number_numeral limit n rest Hend) as Hm.
    cbn [ints_within] in Hint. apply negb_true_iff in Hint. rewrite Hint in Hm.
    destruct (numeral_head n) as (c & t & E & Hc). rewrite E in *.
    cbn [app] in *. cbn [scan_once]. unfold QUOTE.
    repeat match goal with
           | |- context [(c =? ?k)%N] => destruct (N.eqb_spec c k); [lia|]
           end.
    rewrite Hm. reflexivity.
  - discriminate Hok.
  - cbn [iterencode value_ok] in *. unfold py_encode_basestring_ascii.
    cbn [app]. rewrite <- app_assoc.
    change (scan_once limit depth (S fuel) (QUOTE :: ?t))
      with (match scanstring t with
            | Some (chars, r) => inr (VStr chars, r)
            | None => @inl exn (value * str) JSONDecodeError
            end).
    cbn [app]. rewrite scanstring_escaped by assumption. reflexivity.
  - destruct items as [|x items].
    { destruct depth as [|depth]; [cbn in Hdepth; lia|]. reflexivity. }
    cbn [value_ok] in Hok. rewrite forallb_forall in Hok.
    cbn [ints_within] in Hint. rewrite forallb_forall in Hint.
    destruct depth as [|depth]; [cbn in Hdepth; lia|].
    cbn [nesting] in Hdepth. apply le_S_n in Hdepth.
    rewrite iterencode_list.
    change (scan_once limit (S depth) (S fuel) (91%N :: ?t))
      with (JSONArray (scan_once limit depth fuel) fuel t).
    rewrite JSONArray_items by (apply join_head, Hok; now left).
    rewrite array_loop_items; [reflexivity | | assumption | discriminate | ].
    + intros y r Hy Hr. apply IH; [|now apply Hok|now apply Hint| |assumption].
      * pose proof (length_iterencode_item indent level y _ Hy). lia.
      * apply (nesting_item nesting) in Hy. lia.
    + pose proof (length_iterencode_items indent level (x :: items)). lia.
  - destruct items as [|kv items].
    { destruct depth as [|depth]; [cbn in Hdepth; lia|]. reflexivity. }
    cbn [value_ok] in Hok. apply andb_true_iff in Hok as [Hkeys Hok].
    rewrite forallb_forall in Hok.
    cbn [ints_within] in Hint. rewrite forallb_forall in Hint.
    destruct depth as [|depth]; [cbn in Hdepth; lia|].
    cbn [nesting] in Hdepth. apply le_S_n in Hdepth.
    rewrite iterencode_dict.
    change (scan_once limit (S depth) (S fuel) (123%N :: ?t))
      with (JSONObject (scan_once limit depth fuel) fuel t).
    rewrite items_text_head by discriminate.
    rewrite JSONObject_items.
    rewrite object_loop_items; [ | | | discriminate | ].
    + now rewrite dict_of_pairs_distinct.
    + intros y r Hy Hr. apply IH; [| |now apply Hint| |assumption].
      * pose proof (length_iterencode_value indent level y _ Hy). lia.
      * apply Hok in Hy. now apply andb_true_iff in Hy.
      * apply (nesting_item (fun kv => nesting (snd kv))) in Hy. lia.
    + intros y Hy. apply Hok in Hy. now apply andb_true_iff in Hy.
    + pose proof (length_iterencode_pairs indent level (kv :: items)). lia.
Qed.

(** [json.loads] inverts the text [json.dumps(obj, indent=n)] writes for
    a well-formed object whose integers are within the limit on integer
    strings and which is nested no deeper than the decoder can go. *)
Lemma loads_iterencode (interp : Interpreter) (v : value) (indent : nat) :
  value_ok v = true -> ints_within (max_str_digits interp) v = true ->
  (nesting v <= decoder_depth interp)%nat ->
  loads interp (iterencode indent 0 v) = inr v.
Proof.
  intros Hok Hint Hdepth. unfold loads.
  pose proof (@scan_once_iterencode (max_str_digits interp)
                (S (length (iterencode indent 0 v))) v (decoder_depth interp) indent 0 [])
    as H.
  rewrite app_nil_r in H.
  destruct (iterencode_head indent 0 v Hok) as (c & t & E & Hc).
  assert (Hbom : startswith (iterencode indent 0 v) [65279%N] = false).
  { rewrite E. cbn [startswith]. destruct (N.eqb_spec 65279 c) as [<-|_]; [|reflexivity].
    unfold value_start, QUOTE in Hc. lia. }
  rewrite Hbom.
  assert (Hws : skip_ws (iterencode indent 0 v) = iterencode indent 0 v).
  { rewrite E. apply skip_ws_stop. now apply value_start_not_ws. }
  rewrite Hws, H by (try assumption; try reflexivity; lia).
  reflexivity.
Qed.

(** ** The text of an encoded object contains no surrogate *)

Lemma value_induction (P : value -> Prop) :
  P VNone -> (forall b, P (VBool b)) -> (forall n, P (VInt n)) ->
  (forall numeral, P (VFloat numeral)) -> (forall s, P (VStr s)) ->
  (forall items, Forall P items -> P (VList items)) ->
  (forall items, Forall (fun kv => P (snd kv)) items -> P (VDict items)) ->
  forall v, P v.
Proof.
  intros HNone HBool HInt HFloat HStr HList HDict. fix IH 1.
  intros [ | b | n | numeral | s | items | items ].
  - exact HNone.
  - apply HBool.
  - apply HInt.
  - apply HFloat.
  - apply HStr.
  - apply HList. induction items as [|x items IHitems]; constructor;
      [apply IH | exact IHitems].
  - apply HDict. induction items as [|[k x] items IHitems]; constructor;
      [apply IH | exact IHitems].
Qed.

Lemma plain_text_app (a b : str) : plain_text a -> plain_text b -> plain_text (a ++ b).
Proof. intros Ha Hb. apply Forall_app. now split. Qed.

Lemma lit_plain (s : string) : plain_text (lit s).
Proof.
  unfold lit, plain_text. induction s as [|a s IH]; cbn [list_ascii_of_string List.map];
    constructor; [apply N_ascii_bounded | exact IH].
Qed.

Lemma hexdigit_plain (d : N) : (d < 16)%N -> (hexdigit d < 256)%N.
Proof. unfold hexdigit. intros H. destruct (N.ltb_spec d 10); lia. Qed.

Lemma u_escape_plain (n : N) : plain_text (u_escape n).
Proof.
  unfold u_escape, format_04x, plain_text, BACKSLASH.
  repeat constructor; try lia; apply hexdigit_plain, N.mod_lt; lia.
Qed.

Lemma replace_plain (c : N) : plain_text (replace c).
Proof.
  unfold replace, QUOTE, BACKSLASH.
  repeat match goal with
         | |- context [(c =? ?k)%N] =>
             destruct (N.eqb_spec c k); [repeat constructor; lia|]
         end.
  destruct (N.leb_spec 32 c), (N.leb_spec c 126); cbn [andb];
    try (repeat constructor; lia);
    destruct (N.ltb_spec c 65536);
    try apply plain_text_app; apply u_escape_plain.
Qed.

Lemma py_encode_basestring_ascii_plain (s : str) :
  plain_text (py_encode_basestring_ascii s).
Proof.
  unfold py_encode_basestring_ascii. constructor; [unfold QUOTE; lia|].
  apply plain_text_app; [|repeat constructor; unfold QUOTE; lia].
  induction s as [|c s IH]; [constructor|]. cbn [flat_map].
  apply plain_text_app; [apply replace_plain | exact IH].
Qed.

Lemma numeral_plain (n : Z) : plain_text (numeral n).
Proof.
  assert (H : forall u, plain_text (uint_chars u)).
  { induction u; cbn [uint_chars]; constructor; try assumption; reflexivity. }
  unfold numeral. destruct (Z.to_int n); [apply H|].
  constructor; [lia | apply H].
Qed.

Lemma newline_indent_plain (indent level : nat) : plain_text (newline_indent indent level).
Proof.
  unfold newline_indent, times. constructor; [lia|].
  induction (indent * level)%nat; cbn [repeat]; constructor; [lia|assumption].
Qed.

Lemma join_plain (sep : str) (parts : list str) :
  plain_text sep -> Forall plain_text parts -> plain_text (join sep parts).
Proof.
  intros Hsep Hparts. induction Hparts as [|p parts Hp Hparts IH]; [constructor|].
  destruct parts as [|q parts]; [exact Hp|].
  rewrite join_cons by discriminate. repeat apply plain_text_app; assumption.
Qed.

(** With [ensure_ascii] at its default, every character [json.dumps]
    writes for a string is ASCII; the rest of its output is punctuation,
    digits and the names of constants. *)
Lemma iterencode_plain (indent : nat) (v : value) :
  forall level, plain_text (iterencode indent level v).
Proof.
  assert (Hsep : forall level, plain_text (item_separator ++ newline_indent indent level)).
  { intros level. apply plain_text_app; [apply lit_plain | apply newline_indent_plain]. }
  induction v as [ | [|] | n | numeral | s | items IH | items IH ] using value_induction;
    intros level; cbn [iterencode]; try apply lit_plain.
  - apply numeral_plain.
  - apply py_encode_basestring_ascii_plain.
  - destruct items as [|x items]; [apply lit_plain|].
    repeat apply plain_text_app;
      try apply newline_indent_plain; try apply lit_plain.
    apply join_plain; [apply Hsep|].
    apply Forall_map. rewrite Forall_forall in *. intros y Hy. now apply IH.
  - destruct items as [|x items]; [apply lit_plain|].
    repeat apply plain_text_app;
      try apply newline_indent_plain; try apply lit_plain.
    apply join_plain; [apply Hsep|].
    apply Forall_map. rewrite Forall_forall in *. intros y Hy.
    repeat apply plain_text_app.
    + apply py_encode_basestring_ascii_plain.
    + apply lit_plain.
    + now apply IH.
Qed.

Lemma plain_text_str_ok (s : str) : plain_text s -> str_ok s = true.
Proof.
  induction 1 as [|c s Hc Hs IH]; [reflexivity|].
  cbn [str_ok]. rewrite IH, andb_true_r. unfold max_code_point, is_high_surrogate.
  destruct (N.ltb_spec c 1114112); [|lia].
  destruct (N.leb_spec 55296 c); [lia|reflexivity].
Qed.

(** ** The fuel of the decoder

    Every decoding function consumes text, and [scan_once] gives the same
    result for any two amounts of fuel that are at least the length of the
    text: the fuel [loads] supplies never runs out, and an exception from
    [loads] is always one that [json.loads] raises on the text. *)

Lemma push_some (c : N) (o : option (str * str)) (chars r : str) :
  push c o = Some (chars, r) -> exists chars', o = Some (chars', r).
Proof.
  destruct o as [[chars' r']|]; [|discriminate]. cbn. intros H.
  injection H as _ <-. now exists chars'.
Qed.

Ltac break_match_in H :=
  match type of H with
  | context [match ?x with _ => _ end] => destruct x eqn:?
  end.

Lemma scanstring_progress (n : nat) :
  forall s chars r, (length s <= n)%nat ->
    scanstring s = Some (chars, r) -> (length r < length s)%nat.
Proof.
  induction n as [|n IH]; intros s chars r Hn H.
  { destruct s; [discriminate H | cbn in Hn; lia]. }
  destruct s as [|c s1]; [discriminate H|]. cbn [scanstring] in H.
  repeat (break_match_in H; try discriminate H); subst;
    try (injection H as <- <-; cbn [length]; lia);
    (apply push_some in H as [chars' H]; apply IH in H;
     cbn [length] in *; lia).
Qed.

Lemma skip_ws_length (s : str) : (length (skip_ws s) <= length s)%nat.
Proof.
  induction s as [|c s IH]; [reflexivity|]. cbn [skip_ws].
  destruct (is_ws c); cbn [length]; lia.
Qed.

Lemma take_digits_length (s : str) : (length (snd (take_digits s)) <= length s)%nat.
Proof.
  induction s as [|c s IH]; [reflexivity|]. cbn [take_digits].
  destruct (digit_of_char c) as [d|]; [|reflexivity].
  destruct (take_digits s) as [u rest]. cbn [snd length] in *. lia.
Qed.

Lemma match_digits_progress (s : str) (u : Decimal.uint) (r : str) :
  match_digits s = Some (u, r) -> (length r < length s)%nat.
Proof.
  destruct s as [|c s']; [discriminate|]. cbn [match_digits].
  destruct (N.eqb_spec c 48).
  { intros H. injection H as _ <-. cbn [length]. lia. }
  destruct ((49 <=? c)%N && (c <=? 57)%N) eqn:Hc; [|discriminate].
  apply andb_true_iff in Hc as [H1 H2]. apply N.leb_le in H1, H2.
  cbn [take_digits]. pose proof (take_digits_length s') as Hlen.
  destruct (take_digits s') as [u' rest].
  assert (Hd : digit_of_char c <> None).
  { unfold digit_of_char.
    repeat match goal with
           | |- context [(c =? ?k)%N] => destruct (N.eqb_spec c k); [discriminate|]
           end. lia. }
  destruct (digit_of_char c) as [d|]; [|contradiction].
  intros H. injection H as _ <-. cbn [snd length] in *. lia.
Qed.

Lemma match_frac_length (s : str) : (length (snd (match_frac s)) <= length s)%nat.
Proof.
  destruct s as [|c s']; [reflexivity|]. cbn [match_frac].
  destruct (c =? 46)%N; [|reflexivity].
  pose proof (take_digits_length s') as H.
  destruct (take_digits s') as [u rest]; destruct u; cbn [snd length] in *; lia.
Qed.

Lemma match_exp_length (s : str) : (length (snd (match_exp s)) <= length s)%nat.
Proof.
  destruct s as [|c s']; [reflexivity|]. cbn [match_exp].
  destruct ((c =? 101) || (c =? 69))%N; [|reflexivity].
  destruct s' as [|sg s'']; [reflexivity|].
  destruct ((sg =? 45) || (sg =? 43))%N.
  - pose proof (take_digits_length s'') as H.
    destruct (take_digits s'') as [u rest]; destruct u; cbn [snd length] in *; lia.
  - pose proof (take_digits_length (sg :: s'')) as H.
    destruct (take_digits (sg :: s'')) as [u rest]; destruct u;
      cbn [snd length] in *; lia.
Qed.

Lemma match_number_progress (limit : nat) (s : str) (v : value) (r : str) :
  match_number limit s = Some (inr (v, r)) -> (length r < length s)%nat.
Proof.
  unfold match_number.
  set (start := match s with
                | c :: s' => if (c =? 45)%N then (true, s') else (false, s)
                | [] => (false, s)
                end).
  assert (Hstart : (length (snd start) <= length s)%nat).
  { subst start. destruct s as [|c s']; [reflexivity|].
    destruct (c =? 45)%N; cbn [snd length]; lia. }
  destruct start as [neg s0]. cbn [snd] in Hstart.
  destruct (match_digits s0) as [[u s1]|] eqn:Hd; [|discriminate].
  apply match_digits_progress in Hd.
  pose proof (match_frac_length s1) as Hf. destruct (match_frac s1) as [frac s2].
  pose proof (match_exp_length s2) as He. destruct (match_exp s2) as [exp s3].
  cbn [snd] in *. intros H.
  assert (r = s3).
  { destruct frac, exp; try (injection H as _ <-; reflexivity).
    destruct (parse_int limit neg u); [discriminate H|].
    injection H as _ <-. reflexivity. }
  subst r. lia.
Qed.

Lemma after_prefix_length (p s r : str) :
  after_prefix p s = Some r -> length s = (length p + length r)%nat.
Proof.
  revert s. induction p as [|x p IH]; intros s H.
  - destruct s; injection H as <-; reflexivity.
  - destruct s as [|y s]; [discriminate H|]. cbn [after_prefix] in H.
    destruct (x =? y)%N; [|discriminate H]. apply IH in H. cbn [length]. lia.
Qed.

Lemma constant_progress (name : str) (v v' : value) (s r : str) :
  name <> [] -> constant name v s = inr (v', r) -> (length r < length s)%nat.
Proof.
  intros Hne. unfold constant. destruct (after_prefix name s) as [r'|] eqn:E;
    [|discriminate].
  intros H. injection H as _ <-. apply after_prefix_length in E.
  destruct name; [contradiction|]. cbn [length] in E. lia.
Qed.

Section Fuel.

Variable scan : str -> exn + value * str.

Hypothesis scan_progress :
  forall s v r, scan s = inr (v, r) -> (length r < length s)%nat.

Hypothesis scan_nil : scan [] = inl JSONDecodeError.

Lemma array_loop_progress (n : nat) :
  forall s vs r, array_loop scan n s = inr (vs, r) -> (length r < length s)%nat.
Proof.
  induction n as [|n IH]; intros s vs r H; [discriminate H|].
  cbn [array_loop] in H.
  destruct (scan s) as [e|[v r0]] eqn:Es; [discriminate H|].
  apply scan_progress in Es. pose proof (skip_ws_length r0) as Hw.
  destruct (skip_ws r0) as [|c r1]; [discriminate H|].
  destruct (c =? 93)%N.
  { injection H as _ <-. cbn [length] in *. lia. }
  destruct (c =? 44)%N; [|discriminate H].
  destruct (array_loop scan n (skip_ws r1)) as [e|[vs' r2]] eqn:El; [discriminate H|].
  injection H as _ <-. apply IH in El. pose proof (skip_ws_length r1).
  cbn [length] in *. lia.
Qed.

Lemma JSONArray_progress (n : nat) (s : str) (v : value) (r : str) :
  JSONArray scan n s = inr (v, r) -> (length r <= length s)%nat.
Proof.
  unfold JSONArray. pose proof (skip_ws_length s) as Hw.
  destruct (skip_ws s) as [|c r0]; [discriminate|].
  destruct (c =? 93)%N.
  { intros H. injection H as _ <-. cbn [length] in *. lia. }
  destruct (array_loop scan n (c :: r0)) as [e|[vs r1]] eqn:El; [discriminate|].
  intros H. injection H as _ <-. apply array_loop_progress in El. lia.
Qed.

Lemma object_loop_progress (n : nat) :
  forall s kvs r, object_loop scan n s = inr (kvs, r) -> (length r < length s)%nat.
Proof.
  induction n as [|n IH]; intros s kvs r H; [discriminate H|].
  cbn [object_loop] in H.
  destruct (scanstring s) as [[key r0]|] eqn:Ek; [|discriminate H].
  apply (@scanstring_progress (length s)) in Ek; [|lia].
  pose proof (skip_ws_length r0) as Hw0.
  destruct (skip_ws r0) as [|c0 r1]; [discriminate H|].
  destruct (c0 =? 58)%N; [|discriminate H].
  pose proof (skip_ws_length r1) as Hw1.
  destruct (scan (skip_ws r1)) as [e|[v r2]] eqn:Es; [discriminate H|].
  apply scan_progress in Es. pose proof (skip_ws_length r2) as Hw2.
  destruct (skip_ws r2) as [|c r3]; [discriminate H|].
  destruct (c =? 125)%N.
  { injection H as _ <-. cbn [length] in *. lia. }
  destruct (c =? 44)%N; [|discriminate H].
  pose proof (skip_ws_length r3) as Hw3.
  destruct (skip_ws r3) as [|q r4]; [discriminate H|].
  destruct (q =? QUOTE)%N; [|discriminate H].
  destruct (object_loop scan n r4) as [e|[kvs' r5]] eqn:El; [discriminate H|].
  injection H as _ <-. apply IH in El. cbn [length] in *. lia.
Qed.

Lemma JSONObject_progress (n : nat) (s : str) (v : value) (r : str) :
  JSONObject scan n s = inr (v, r) -> (length r <= length s)%nat.
Proof.
  unfold JSONObject. pose proof (skip_ws_length s) as Hw.
  destruct (skip_ws s) as [|c r0]; [discriminate|].
  destruct (c =? 125)%N.
  { intros H. injection H as _ <-. cbn [length] in *. lia. }
  destruct (c =? QUOTE)%N; [|discriminate].
  destruct (object_loop scan n r0) as [e|[kvs r1]] eqn:El; [discriminate|].
  intros H. injection H as _ <-. apply object_loop_progress in El.
  cbn [length] in *. lia.
Qed.

(** A second scanner that agrees with [scan] on short enough text. *)
Variable scan' : str -> exn + value * str.

Lemma array_loop_stable (n : nat) :
  forall n' s,
    (forall t, (length t <= length s)%nat -> scan t = scan' t) ->
    (length s <= n)%nat -> (length s <= n')%nat ->
    array_loop scan n s = array_loop scan' n' s.
Proof.
  induction n as [|n IH]; intros n' s Hagree Hn Hn'.
  { destruct s; [|cbn in Hn; lia]. destruct n'; [reflexivity|].
    cbn [array_loop]. now rewrite <- Hagree, scan_nil by reflexivity. }
  destruct n' as [|n'].
  { destruct s; [|cbn in Hn'; lia]. cbn [array_loop]. now rewrite scan_nil. }
  cbn [array_loop]. rewrite <- Hagree by reflexivity.
  destruct (scan s) as [e|[v r0]] eqn:Es; [reflexivity|].
  apply scan_progress in Es. pose proof (skip_ws_length r0) as Hw.
  destruct (skip_ws r0) as [|c r1]; [reflexivity|].
  destruct (c =? 93)%N; [reflexivity|]. destruct (c =? 44)%N; [|reflexivity].
  pose proof (skip_ws_length r1) as Hw1. cbn [length] in *.
  rewrite (IH n' (skip_ws r1)); [reflexivity | | lia | lia].
  intros t Ht. apply Hagree. lia.
Qed.

Lemma JSONArray_stable (n n' : nat) (s : str) :
  (forall t, (length t <= length s)%nat -> scan t = scan' t) ->
  (length s <= n)%nat -> (length s <= n')%nat ->
  JSONArray scan n s = JSONArray scan' n' s.
Proof.
  intros Hagree Hn Hn'. unfold JSONArray. pose proof (skip_ws_length s) as Hw.
  destruct (skip_ws s) as [|c r0]; [reflexivity|].
  destruct (c =? 93)%N; [reflexivity|].
  rewrite (@array_loop_stable n n' (c :: r0)); [reflexivity | | lia | lia].
  intros t Ht. apply Hagree. lia.
Qed.

Lemma object_loop_stable (n : nat) :
  forall n' s,
    (forall t, (length t <= length s)%nat -> scan t = scan' t) ->
    (length s <= n)%nat -> (length s <= n')%nat ->
    object_loop scan n s = object_loop scan' n' s.
Proof.
  induction n as [|n IH]; intros n' s Hagree Hn Hn'.
  { destruct s; [|cbn in Hn; lia]. destruct n'; reflexivity. }
  destruct n' as [|n'].
  { destruct s; [|cbn in Hn'; lia]. reflexivity. }
  cbn [object_loop].
  destruct (scanstring s) as [[key r0]|] eqn:Ek; [|reflexivity].
  apply (@scanstring_progress (length s)) in Ek; [|lia].
  pose proof (skip_ws_length r0) as Hw0.
  destruct (skip_ws r0) as [|c0 r1]; [reflexivity|].
  destruct (c0 =? 58)%N; [|reflexivity].
  pose proof (skip_ws_length r1) as Hw1. cbn [length] in *.
  rewrite <- Hagree by lia.
  destruct (scan (skip_ws r1)) as [e|[v r2]] eqn:Es; [reflexivity|].
  apply scan_progress in Es. pose proof (skip_ws_length r2) as Hw2.
  destruct (skip_ws r2) as [|c r3]; [reflexivity|].
  destruct (c =? 125)%N; [reflexivity|]. destruct (c =? 44)%N; [|reflexivity].
  pose proof (skip_ws_length r3) as Hw3.
  destruct (skip_ws r3) as [|q r4]; [reflexivity|].
  destruct (q =? QUOTE)%N; [|reflexivity]. cbn [length] in *.
  rewrite (IH n' r4); [reflexivity | | lia | lia].
  intros t Ht. apply Hagree. lia.
Qed.

Lemma JSONObject_stable (n n' : nat) (s : str) :
  (forall t, (length t <= length s)%nat -> scan t = scan' t) ->
  (length s <= n)%nat -> (length s <= n')%nat ->
  JSONObject scan n s = JSONObject scan' n' s.
Proof.
  intros Hagree Hn Hn'. unfold JSONObject. pose proof (skip_ws_length s) as Hw.
  destruct (skip_ws s) as [|c r0]; [reflexivity|].
  destruct (c =? 125)%N; [reflexivity|]. destruct (c =? QUOTE)%N; [|reflexivity].
  cbn [length] in *.
  rewrite (@object_loop_stable n n' r0); [reflexivity | | lia | lia].
  intros t Ht. apply Hagree. lia.
Qed.

End Fuel.

Lemma scan_once_nil (limit depth fuel : nat) :
  scan_once limit depth fuel [] = inl JSONDecodeError.
Proof. destruct fuel; reflexivity. Qed.

Lemma scan_once_progress (limit fuel : nat) :
  forall depth s v r,
    scan_once limit depth fuel s = inr (v, r) -> (length r < length s)%nat.
Proof.
  induction fuel as [|fuel IH]; intros depth s v r H; [discriminate H|].
  destruct s as [|c s']; [discriminate H|]. cbn [scan_once] in H.
  destruct (c =? QUOTE)%N.
  { destruct (scanstring s') as [[chars r']|] eqn:E; [|discriminate H].
    injection H as _ <-. apply (@scanstring_progress (length s')) in E; [|lia].
    cbn [length]. lia. }
  destruct (c =? 123)%N.
  { destruct depth as [|depth]; [discriminate H|].
    apply JSONObject_progress in H; [|apply IH]. cbn [length]. lia. }
  destruct (c =? 91)%N.
  { destruct depth as [|depth]; [discriminate H|].
    apply JSONArray_progress in H; [|apply IH]. cbn [length]. lia. }
  destruct (c =? 110)%N; [apply constant_progress in H; [assumption|discriminate]|].
  destruct (c =? 116)%N; [apply constant_progress in H; [assumption|discriminate]|].
  destruct (c =? 102)%N; [apply constant_progress in H; [assumption|discriminate]|].
  destruct (match_number limit (c :: s')) as [res|] eqn:E.
  { subst res. now apply match_number_progress in E. }
  destruct (c =? 78)%N; [apply constant_progress in H; [assumption|discriminate]|].
  destruct (c =? 73)%N; [apply constant_progress in H; [assumption|discriminate]|].
  destruct (c =? 45)%N; [apply constant_progress in H; [assumption|discriminate]|].
  discriminate H.
Qed.

Lemma scan_once_stable (limit fuel : nat) :
  forall depth fuel' s, (length s <= fuel)%nat -> (length s <= fuel')%nat ->
    scan_once limit depth fuel s = scan_once limit depth fuel' s.
Proof.
  induction fuel as [|fuel IH]; intros depth fuel' s Hf Hf'.
  { destruct s; [|cbn in Hf; lia]. destruct fuel'; reflexivity. }
  destruct fuel' as [|fuel'].
  { destruct s; [|cbn in Hf'; lia]. reflexivity. }
  destruct s as [|c s']; [reflexivity|]. cbn [scan_once length] in *.
  destruct depth as [|depth]; [reflexivity|].
  rewrite (@JSONObject_stable (scan_once limit depth fuel)
             (scan_once_progress limit fuel depth)
             (scan_once limit depth fuel') fuel fuel' s');
    [| intros t Ht; apply IH; lia | lia | lia].
  rewrite (@JSONArray_stable (scan_once limit depth fuel)
             (scan_once_progress limit fuel depth) (scan_once_nil limit depth fuel)
             (scan_once limit depth fuel') fuel fuel' s');
    [| intros t Ht; apply IH; lia | lia | lia].
  reflexivity.
Qed.

(** More fuel than [loads] supplies changes nothing. *)
Lemma loads_fuel (interp : Interpreter) (s : str) (fuel : nat) :
  (length s <= fuel)%nat ->
  scan_once (max_str_digits interp) (decoder_depth interp) fuel (skip_ws s)
  = scan_once (max_str_digits interp) (decoder_depth interp) (S (length s)) (skip_ws s).
Proof.
  intros H. pose proof (skip_ws_length s). apply scan_once_stable; lia.
Qed.

(** ** When json.dumps returns *)

Lemma first_raised_none (A : Type) (f : A -> option exn) (items : list A) :
  first_raised (List.map f items) = None <-> forall x, In x items -> f x = None.
Proof.
  induction items as [|x items IH]; cbn [List.map first_raised].
  - split; [intros _ x []|reflexivity].
  - destruct (f x) as [e|] eqn:E.
    + split; [discriminate|]. intros H.
      specialize (H x (or_introl eq_refl)). congruence.
    + rewrite IH. split.
      * intros H y [<-|Hy]; [exact E|now apply H].
      * intros H y Hy. apply H. now right.
Qed.

Lemma nesting_le (A : Type) (f : A -> nat) (items : list A) (d : nat) :
  (list_max (List.map f items) <= d)%nat <-> forall x, In x items -> (f x <= d)%nat.
Proof.
  rewrite list_max_le, Forall_forall. split.
  - intros H x Hx. apply H. now apply in_map.
  - intros H k Hk. apply in_map_iff in Hk as (x & <- & Hx). now apply H.
Qed.

(** Producing the chunks of an object raises nothing exactly when its
    integers are within the limit on integer strings and it is nested no
    deeper than the encoder can go. *)
Lemma iterencode_error_none (limit : nat) (v : value) :
  forall depth,
    iterencode_error limit depth v = None
    <-> ints_within limit v = true /\ (nesting v <= depth)%nat.
Proof.
  induction v as [ | b | n | numeral | s | items IH | items IH ] using value_induction;
    intros depth; cbn [iterencode_error ints_within nesting];
    try (split; [intros _; split; [reflexivity|lia] | reflexivity]).
  - unfold int_repr. destruct (exceeds limit (digits n)); cbn [negb].
    + split; [discriminate | intros [H _]; discriminate H].
    + split; [intros _; split; [reflexivity|lia] | reflexivity].
  - destruct depth as [|depth]; [split; [discriminate | intros [_ H]; lia]|].
    rewrite first_raised_none, forallb_forall, <- Nat.succ_le_mono, nesting_le.
    rewrite Forall_forall in IH. split.
    + intros H. split; intros x Hx; apply (IH x Hx depth); now apply H.
    + intros [H1 H2] x Hx. apply (IH x Hx depth). split; [now apply H1 | now apply H2].
  - destruct depth as [|depth]; [split; [discriminate | intros [_ H]; lia]|].
    rewrite first_raised_none, forallb_forall, <- Nat.succ_le_mono, nesting_le.
    rewrite Forall_forall in IH. split.
    + intros H. split; intros x Hx; apply (IH x Hx depth); now apply H.
    + intros [H1 H2] x Hx. apply (IH x Hx depth). split; [now apply H1 | now apply H2].
Qed.

(** [json.dumps] returns exactly on those objects, and what it returns is
    the text of the chunks. *)
Lemma dumps_returned (interp : Interpreter) (obj : value) (indent : nat) (t : str) :
  dumps interp obj indent = inr t
  <-> t = iterencode indent 0 obj
      /\ ints_within (max_str_digits interp) obj = true
      /\ (nesting obj <= encoder_depth interp)%nat.
Proof.
  unfold dumps.
  pose proof (iterencode_error_none (max_str_digits interp) obj (encoder_depth interp)) as H.
  destruct (iterencode_error (max_str_digits interp) (encoder_depth interp) obj) as [e|].
  - split; [discriminate|]. intros (_ & Hi & Hd).
    assert (E : Some e = None) by (apply H; now split). discriminate E.
  - split.
    + intros E. injection E as <-. split; [reflexivity|]. now apply H.
    + intros (-> & _). reflexivity.
Qed.

(** [json.loads] inverts [json.dumps(obj, indent=n)] on a well-formed
    object that is nested no deeper than the decoder can go. *)
Lemma loads_dumps (interp : Interpreter) (v : value) (indent : nat) (t : str) :
  value_ok v = true -> dumps interp v indent = inr t ->
  (nesting v <= decoder_depth interp)%nat ->
  loads interp t = inr v.
Proof.
  intros Hok Hd Hdepth. apply dumps_returned in Hd as (-> & Hint & _).
  now apply loads_iterencode.
Qed.

(** Without a limit on integer strings every integer is within it. *)
Lemma ints_within_unlimited (v : value) : ints_within 0 v = true.
Proof.
  induction v as [ | b | n | numeral | s | items IH | items IH ] using value_induction;
    cbn [ints_within]; try reflexivity.
  - apply forallb_forall. now rewrite Forall_forall in IH.
  - apply forallb_forall. now rewrite Forall_forall in IH.
Qed.

(** ** Typed nodes and edges *)

(** A node or an edge that conforms to its declaration, with distinct keys
    and well-formed string values, is a well-formed argument of
    [json.dumps]: its keys are ASCII and its values are [str] and [int]. *)
Lemma conforms_value_ok (declared : list (string * field_type))
    (items : list (str * value)) :
  conforms declared (VDict items) = true ->
  distinct (List.map fst items) = true ->
  forallb (fun kv => match snd kv with VStr s => str_ok s | _ => true end) items = true ->
  value_ok (VDict items) = true.
Proof.
  intros Hc Hd Hs. cbn [value_ok conforms] in *. rewrite Hd. cbn [andb].
  rewrite forallb_forall in *. intros [k v] Hin.
  specialize (Hc _ Hin). specialize (Hs _ Hin). cbn [fst snd] in *.
  apply existsb_exists in Hc as ([name t] & _ & Ht). cbn [fst snd] in Ht.
  apply andb_true_iff in Ht as [Hk Ht]. apply eqb_eq in Hk. subst k.
  rewrite (plain_text_str_ok (lit_plain name)). cbn [andb].
  destruct t, v; try discriminate Ht; try reflexivity. exact Hs.
Qed.

(* ================================================================== *)
(** * Properties of the tool *)

Lemma join_summary (response : Response) (folder title : str) :
  join [10%N] (summary response folder title)
  = lit "# " ++ action response ++ lit ": " ++ file_path folder title
    ++ [10; 10]%N ++ lit "The canvas is ready to open in Obsidian.".
Proof.
  unfold summary. cbn [join]. rewrite <- !app_assoc. reflexivity.
Qed.

Lemma action_cases (response : Response) :
  (action response = lit "Created" <-> status_code response = 201%Z)
  /\ (action response = lit "Updated" <-> status_code response <> 201%Z).
Proof.
  unfold action. destruct (Z.eqb_spec (status_code response) 201) as [E|E].
  - split; split; intros H; try reflexivity; try assumption;
      [discriminate H | contradiction].
  - split; split; intros H; try reflexivity; try assumption;
      [discriminate H | contradiction].
Qed.

(** The layout of the canvas text at its top level: the two keys, in this
    order, each on a line of its own indented by two spaces. *)
Lemma canvas_json_top (nodes edges : list value) :
  canvas_json nodes edges
  = lit "{" ++ [10%N]
    ++ lit "  " ++ [QUOTE] ++ lit "nodes" ++ [QUOTE] ++ lit ": "
    ++ iterencode 2 1 (VList nodes) ++ lit "," ++ [10%N]
    ++ lit "  " ++ [QUOTE] ++ lit "edges" ++ [QUOTE] ++ lit ": "
    ++ iterencode 2 1 (VList edges) ++ [10%N]
    ++ lit "}".
Proof.
  unfold canvas_json, canvas_data. cbn [iterencode List.map join fst snd].
  rewrite <- !app_assoc. reflexivity.
Qed.

(** A JSON parser reads the nodes and the edges back from the canvas
    text, when they are well formed and within the limits of the
    interpreter. *)
Lemma loads_canvas_json (interp : Interpreter) (nodes edges : list value) :
  forallb value_ok nodes = true -> forallb value_ok edges = true ->
  ints_within (max_str_digits interp) (canvas_data nodes edges) = true ->
  (nesting (canvas_data nodes edges) <= decoder_depth interp)%nat ->
  loads interp (canvas_json nodes edges)
  = inr (VDict [(lit "nodes", VList nodes); (lit "edges", VList edges)]).
Proof.
  intros Hn He Hint Hdepth. unfold canvas_json. apply loads_iterencode; try assumption.
  cbn [value_ok canvas_data List.map fst snd forallb].
  rewrite Hn, He. reflexivity.
Qed.

(** The remote writes of an invocation: none when project resolution or
    the serialization of the document raises, otherwise the single request
    to the resource URL of the destination path, with the canvas JSON text
    as its [json] argument. *)
Lemma canvas_puts (World Context : Type) (interp : Interpreter)
    (env : Collaborators World Context)
    (nodes edges : list value) (title folder : str) (project : option str)
    (context : option Context) (w : World) :
  puts (events (canvas interp env nodes edges title folder project context w))
  = match snd (get_active_project env context project w),
          dumps interp (canvas_data nodes edges) 2 with
    | inr p, inr document_text =>
        [(project_url p ++ lit "/resource/" ++ file_path folder title,
          VStr document_text)]
    | _, _ => []
    end.
Proof.
  rewrite canvas_run.
  destruct (get_active_project env context project w) as [w1 [e|p]]; [reflexivity|].
  cbn [snd].
  destruct (dumps interp (canvas_data nodes edges) 2) as [e|t] eqn:Hd; [reflexivity|].
  apply dumps_text in Hd. subst t. fold (canvas_json nodes edges). cbv zeta.
  destruct (call_put env _ _ w1) as [w2 [e|response]]; [reflexivity|].
  destruct (Response_json interp response); reflexivity.
Qed.

(** C1.  Every invocation that completes successfully has received exactly
    one response from the remote write, and returns the string made of
    ["# "], the action label, [": "], the destination path, a newline, a
    blank line and the sentence "The canvas is ready to open in Obsidian.",
    where the label is "Created" exactly when the status code of that
    response is 201 and "Updated" exactly when it is anything else. *)
Theorem canvas_summary_text (World Context : Type) (interp : Interpreter)
    (env : Collaborators World Context)
    (nodes edges : list value) (title folder : str) (project : option str)
    (context : option Context) (w : World) (returned : str) :
  outcome (canvas interp env nodes edges title folder project context w) = inr returned ->
  exists response label,
    responses (events (canvas interp env nodes edges title folder project context w))
    = [response]
    /\ (label = lit "Created" <-> status_code response = 201%Z)
    /\ (label = lit "Updated" <-> status_code response <> 201%Z)
    /\ returned
       = lit "# " ++ label ++ lit ": " ++ file_path folder title
         ++ [10; 10]%N ++ lit "The canvas is ready to open in Obsidian.".
Proof.
  rewrite canvas_run.
  destruct (get_active_project env context project w) as [w1 [e|p]]; [discriminate|].
  destruct (dumps interp (canvas_data nodes edges) 2) as [e|t]; [discriminate|].
  cbv zeta. destruct (call_put env _ _ w1) as [w2 [e|response]]; [discriminate|].
  destruct (Response_json interp response) as [e|result]; [discriminate|].
  cbn [outcome events responses]. intros H. injection H as <-.
  exists response, (action response).
  destruct (action_cases response) as [Hc Hu].
  repeat split; try apply Hc; try apply Hu; try apply join_summary.
Qed.

Lemma canvas_summary_text_witness :
  exists response label,
    responses (events (canvas Server.interpreter Server.env [] [] (lit "Map")
                         (lit "diagrams") None None []))
    = [response]
    /\ (label = lit "Created" <-> status_code response = 201%Z)
    /\ (label = lit "Updated" <-> status_code response <> 201%Z)
    /\ lit "# Created: diagrams/Map.canvas" ++ [10; 10]%N
       ++ lit "The canvas is ready to open in Obsidian."
       = lit "# " ++ label ++ lit ": " ++ file_path (lit "diagrams") (lit "Map")
         ++ [10; 10]%N ++ lit "The canvas is ready to open in Obsidian.".
Proof.
  apply (@canvas_summary_text _ _ Server.interpreter Server.env [] [] (lit "Map")
           (lit "diagrams") None None []).
  vm_compute. reflexivity.
Defined.

(** Scenario 1 of the specification: the first write of diagrams/Map.canvas
    is answered 201. *)
Example scenario_created :
  outcome (canvas Server.interpreter Server.env [] [] (lit "Map") (lit "diagrams")
             None None [])
  = inr (lit "# Created: diagrams/Map.canvas" ++ [10; 10]%N
         ++ lit "The canvas is ready to open in Obsidian.").
Proof. vm_compute. reflexivity. Qed.

(** Scenario 2: the same call again is answered 200. *)
Example scenario_updated :
  let first := canvas Server.interpreter Server.env [] [] (lit "Map") (lit "diagrams")
                 None None [] in
  outcome (canvas Server.interpreter Server.env [] [] (lit "Map") (lit "diagrams")
             None None (world first))
  = inr (lit "# Updated: diagrams/Map.canvas" ++ [10; 10]%N
         ++ lit "The canvas is ready to open in Obsidian.").
Proof. vm_compute. reflexivity. Qed.

(** C2 as stated fails: two responses with the same status code, one with
    a JSON body and one with a body that is not JSON, and the tool returns
    on the first and raises on the second. *)
Lemma canvas_body_counterexample :
  let good := {| status_code := 200; text := Some (lit "{}") |} in
  let bad := {| status_code := 200; text := Some (lit "Accepted") |} in
  status_code good = status_code bad
  /\ outcome (canvas Server.interpreter (Server.answering good) [] [] (lit "Map")
                (lit "diagrams") None None [])
     = inr (lit "# Updated: diagrams/Map.canvas" ++ [10; 10]%N
            ++ lit "The canvas is ready to open in Obsidian.")
  /\ outcome (canvas Server.interpreter (Server.answering bad) [] [] (lit "Map")
                (lit "diagrams") None None [])
     = inl JSONDecodeError.
Proof. vm_compute. repeat split. Qed.

(** C2, amended.  For every response the remote write returned to the
    invocation, the outcome of the invocation follows the outcome of
    [response.json()] and, beyond that, the status code alone: when
    [response.json()] returns, the invocation returns the summary, which
    is determined by the status code (201 or not) and the destination
    path, whatever the value decoded from the body; when [response.json()]
    raises (the bytes of the body do not decode, the text is not JSON, a
    number in it has more digits than the limit on integer strings, or it
    is nested deeper than the decoder can go), the invocation raises that
    exception. *)
Theorem canvas_outcome_by_status (World Context : Type) (interp : Interpreter)
    (env : Collaborators World Context)
    (nodes edges : list value) (title folder : str) (project : option str)
    (context : option Context) (w : World) (response : Response) :
  In response
     (responses (events (canvas interp env nodes edges title folder project context w))) ->
  outcome (canvas interp env nodes edges title folder project context w)
  = match Response_json interp response with
    | inr _ =>
        inr (lit "# "
             ++ (if (status_code response =? 201)%Z then lit "Created" else lit "Updated")
             ++ lit ": " ++ file_path folder title
             ++ [10; 10]%N ++ lit "The canvas is ready to open in Obsidian.")
    | inl e => inl e
    end.
Proof.
  rewrite canvas_run.
  destruct (get_active_project env context project w) as [w1 [e|p]]; [intros []|].
  destruct (dumps interp (canvas_data nodes edges) 2) as [e|t]; [intros []|].
  cbv zeta. destruct (call_put env _ _ w1) as [w2 [e|r]]; [intros []|].
  destruct (Response_json interp r) as [e|result] eqn:Hj;
    cbn [outcome events responses In]; intros [<-|[]]; rewrite Hj; [reflexivity|].
  now rewrite join_summary.
Qed.

Lemma canvas_outcome_by_status_witness :
  outcome (canvas Server.interpreter Server.env [] [] (lit "Map") (lit "diagrams")
             None None [])
  = match Response_json Server.interpreter
            {| status_code := 201; text := Some (lit "{}") |} with
    | inr _ =>
        inr (lit "# "
             ++ (if (201 =? 201)%Z then lit "Created" else lit "Updated")
             ++ lit ": " ++ file_path (lit "diagrams") (lit "Map")
             ++ [10; 10]%N ++ lit "The canvas is ready to open in Obsidian.")
    | inl e => inl e
    end.
Proof.
  apply (@canvas_outcome_by_status _ _ Server.interpreter Server.env [] []
           (lit "Map") (lit "diagrams") None None []
           {| status_code := 201; text := Some (lit "{}") |}).
  vm_compute. left. reflexivity.
Defined.

(** What [response.json()] raises besides the decoder's error on text that
    is not JSON: a body whose bytes do not decode, a body that is one
    integer of 4301 digits, and a body that opens more lists than the
    decoder can enter. *)
Example response_json_raises :
  Response_json Server.interpreter {| status_code := 200; text := None |}
  = inl UnicodeDecodeError
  /\ Response_json Server.interpreter
       {| status_code := 200; text := Some (numeral (10 ^ 4300)) |}
     = inl ValueError
  /\ Response_json Server.interpreter
       {| status_code := 200; text := Some (repeat 91%N 901) |}
     = inl RecursionError
  /\ Response_json Server.interpreter
       {| status_code := 200; text := Some (lit "Accepted") |}
     = inl JSONDecodeError.
Proof. vm_compute. repeat split. Qed.

(** C3.  For every remote write an invocation issues, the value handed to
    the transport call as its JSON payload is a [str], the text
    [json.dumps] returned for the canvas document: the two keys "nodes"
    and "edges" with the supplied lists, which a JSON parser reads back
    from it when they are well formed.  The body the transport call sends
    for that value is therefore a JSON string literal (the escaped text
    between double quotes): it decodes to the text, as a string, it is not
    the text itself, and it does not decode to an object. *)
Theorem canvas_payload_double_encoded (World Context : Type) (interp : Interpreter)
    (env : Collaborators World Context)
    (nodes edges : list value) (title folder : str) (project : option str)
    (context : option Context) (w : World) (url : str) (json : value) :
  In (url, json)
     (puts (events (canvas interp env nodes edges title folder project context w))) ->
  exists document_text,
    json = VStr document_text
    /\ dumps interp (VDict [(lit "nodes", VList nodes); (lit "edges", VList edges)]) 2
       = inr document_text
    /\ document_text
       = lit "{" ++ [10%N]
         ++ lit "  " ++ [QUOTE] ++ lit "nodes" ++ [QUOTE] ++ lit ": "
         ++ iterencode 2 1 (VList nodes) ++ lit "," ++ [10%N]
         ++ lit "  " ++ [QUOTE] ++ lit "edges" ++ [QUOTE] ++ lit ": "
         ++ iterencode 2 1 (VList edges) ++ [10%N]
         ++ lit "}"
    /\ (forallb value_ok nodes = true -> forallb value_ok edges = true ->
        (nesting (VDict [(lit "nodes", VList nodes); (lit "edges", VList edges)])
         <= decoder_depth interp)%nat ->
        loads interp document_text
        = inr (VDict [(lit "nodes", VList nodes); (lit "edges", VList edges)]))
    /\ wire_body json = QUOTE :: flat_map replace document_text ++ [QUOTE]
    /\ loads interp (wire_body json) = inr (VStr document_text)
    /\ wire_body json <> document_text
    /\ (forall items, loads interp (wire_body json) <> inr (VDict items)).
Proof.
  rewrite canvas_puts.
  destruct (snd (get_active_project env context project w)) as [e|p]; [intros []|].
  destruct (dumps interp (canvas_data nodes edges) 2) as [e|t] eqn:Hd; [intros []|].
  intros [H|[]]. injection H as _ <-. exists t.
  assert (Hw : loads interp (wire_body (VStr t)) = inr (VStr t)).
  { pose proof Hd as Ht. apply dumps_text in Ht. subst t.
    apply (loads_iterencode interp (VStr (iterencode 2 0 (canvas_data nodes edges))) 0).
    - cbn [value_ok]. apply plain_text_str_ok, iterencode_plain.
    - reflexivity.
    - cbn [nesting]. lia. }
  split; [reflexivity|]. split; [exact Hd|]. split; [|split; [|split; [|split; [|split]]]].
  - apply dumps_text in Hd. subst t. apply canvas_json_top.
  - intros Hn He Hdepth. apply (loads_dumps interp _ 2); try assumption.
    cbn [value_ok canvas_data List.map fst snd forallb]. rewrite Hn, He. reflexivity.
  - reflexivity.
  - exact Hw.
  - apply dumps_text in Hd. fold (canvas_json nodes edges) in Hd.
    rewrite canvas_json_top in Hd. subst t. intros E. discriminate E.
  - intros items E. rewrite Hw in E. discriminate E.
Qed.

Lemma canvas_payload_double_encoded_witness :
  exists document_text,
    VStr (canvas_json [] []) = VStr document_text
    /\ dumps Server.interpreter (VDict [(lit "nodes", VList []); (lit "edges", VList [])]) 2
       = inr document_text
    /\ document_text
       = lit "{" ++ [10%N]
         ++ lit "  " ++ [QUOTE] ++ lit "nodes" ++ [QUOTE] ++ lit ": "
         ++ iterencode 2 1 (VList []) ++ lit "," ++ [10%N]
         ++ lit "  " ++ [QUOTE] ++ lit "edges" ++ [QUOTE] ++ lit ": "
         ++ iterencode 2 1 (VList []) ++ [10%N]
         ++ lit "}"
    /\ (forallb value_ok [] = true -> forallb value_ok [] = true ->
        (nesting (VDict [(lit "nodes", VList []); (lit "edges", VList [])])
         <= decoder_depth Server.interpreter)%nat ->
        loads Server.interpreter document_text
        = inr (VDict [(lit "nodes", VList []); (lit "edges", VList [])]))
    /\ wire_body (VStr (canvas_json [] []))
       = QUOTE :: flat_map replace document_text ++ [QUOTE]
    /\ loads Server.interpreter (wire_body (VStr (canvas_json [] [])))
       = inr (VStr document_text)
    /\ wire_body (VStr (canvas_json [] [])) <> document_text
    /\ (forall items,
          loads Server.interpreter (wire_body (VStr (canvas_json [] [])))
          <> inr (VDict items)).
Proof.
  apply (@canvas_payload_double_encoded _ _ Server.interpreter Server.env [] []
           (lit "Map") (lit "diagrams") None None []
           (lit "/main/resource/diagrams/Map.canvas") (VStr (canvas_json [] []))).
  vm_compute. left. reflexivity.
Defined.

(** The wire body of scenario 1: the document text between quotes, with
    its newlines and quotes escaped. *)
Example empty_canvas_wire_body :
  wire_body (VStr (canvas_json [] []))
  = [QUOTE] ++ lit "{\n  \" ++ [QUOTE] ++ lit "nodes\" ++ [QUOTE] ++ lit ": [],\n  \"
    ++ [QUOTE] ++ lit "edges\" ++ [QUOTE] ++ lit ": []\n}" ++ [QUOTE].
Proof. reflexivity. Qed.

(** C4.  A title that ends with ".canvas" is used as it is; to any other
    title ".canvas" is appended. *)
Theorem file_title_normalized (title : str) :
  ((exists stem, title = stem ++ lit ".canvas") -> file_title title = title)
  /\ (~ (exists stem, title = stem ++ lit ".canvas") ->
      file_title title = title ++ lit ".canvas").
Proof.
  unfold file_title. destruct (endswith title (lit ".canvas")) eqn:E.
  - apply endswith_iff in E. split; [reflexivity | contradiction].
  - split; [|reflexivity]. intros H. apply endswith_iff in H. congruence.
Qed.

Lemma file_title_normalized_witness :
  file_title (lit "Map.canvas") = lit "Map.canvas"
  /\ file_title (lit "Map") = lit "Map" ++ lit ".canvas".
Proof.
  split.
  - apply (proj1 (file_title_normalized (lit "Map.canvas"))).
    exists (lit "Map"). reflexivity.
  - apply (proj2 (file_title_normalized (lit "Map"))).
    intros [stem H]. apply (f_equal (@length N)) in H.
    rewrite length_app in H. simpl in H. lia.
Defined.

(** C5.  The destination path is the folder, one slash and the normalized
    title, joined as they are: the folder is a prefix of the path, exactly
    one character (the slash) separates it from the title, and an empty
    folder gives a path that begins with the slash.  This path is the one
    every remote write of the invocation is addressed to: the write that
    is issued when project resolution and the serialization of the
    document have returned goes to the project URL, "/resource/" and this
    path, and there is no other. *)
Theorem canvas_destination_path (World Context : Type) (interp : Interpreter)
    (env : Collaborators World Context)
    (nodes edges : list value) (title folder : str) (project : option str)
    (context : option Context) (w : World) :
  file_path folder title = folder ++ lit "/" ++ file_title title
  /\ length (file_path folder title)
     = (length folder + 1 + length (file_title title))%nat
  /\ file_path [] title = 47%N :: file_title title
  /\ List.map fst
       (puts (events (canvas interp env nodes edges title folder project context w)))
     = match snd (get_active_project env context project w),
             dumps interp (canvas_data nodes edges) 2 with
       | inr p, inr _ => [project_url p ++ lit "/resource/"
                          ++ folder ++ lit "/" ++ file_title title]
       | _, _ => []
       end.
Proof.
  repeat split.
  - unfold file_path. rewrite !length_app. cbn [length lit List.map list_ascii_of_string].
    lia.
  - rewrite canvas_puts.
    destruct (snd (get_active_project env context project w)); [reflexivity|].
    destruct (dumps interp (canvas_data nodes edges) 2); reflexivity.
Qed.

(** Scenario 3 of the specification, and a folder that ends with a slash. *)
Example scenario_suffix_kept :
  file_path (lit "x") (lit "Map.canvas") = lit "x/Map.canvas".
Proof. reflexivity. Qed.

Example slashes_not_collapsed :
  file_path (lit "a/") (lit "/Map") = lit "a///Map.canvas".
Proof. reflexivity. Qed.

(** The write of scenario 1 goes to the destination path under the URL of
    the default project. *)
Example scenario_destination :
  List.map fst
    (puts (events (canvas Server.interpreter Server.env [] [] (lit "Map")
                     (lit "diagrams") None None [])))
  = [lit "/main/resource/diagrams/Map.canvas"].
Proof. vm_compute. reflexivity. Qed.

(** C6 as stated fails in two ways.  The values of a canvas body are not
    always the supplied ones: a string of two characters, a high surrogate
    and a low surrogate, is written as the escape pair of the single
    character U+1F600, so two different lists of nodes have the same body,
    which reads back as the second.  And there is not always a body: on a
    node that holds an integer of 4301 digits [json.dumps] raises. *)
Lemma canvas_json_values_counterexample :
  let nodes := [VDict [(lit "id", VStr [55357; 56832]%N)]] in
  let nodes' := [VDict [(lit "id", VStr [128512%N])]] in
  let body :=
    lit "{" ++ [10%N] ++ lit "  " ++ [QUOTE] ++ lit "nodes" ++ [QUOTE] ++ lit ": ["
    ++ [10%N] ++ lit "    {" ++ [10%N] ++ lit "      " ++ [QUOTE] ++ lit "id" ++ [QUOTE]
    ++ lit ": " ++ [QUOTE] ++ [BACKSLASH] ++ lit "ud83d" ++ [BACKSLASH] ++ lit "ude00" ++ [QUOTE] ++ [10%N] ++ lit "    }"
    ++ [10%N] ++ lit "  ]," ++ [10%N] ++ lit "  " ++ [QUOTE] ++ lit "edges" ++ [QUOTE]
    ++ lit ": []" ++ [10%N] ++ lit "}" in
  nodes <> nodes'
  /\ dumps Server.interpreter (canvas_data nodes []) 2 = inr body
  /\ dumps Server.interpreter (canvas_data nodes' []) 2 = inr body
  /\ loads Server.interpreter body = inr (canvas_data nodes' [])
  /\ dumps Server.interpreter
       (canvas_data [VDict [(lit "x", VInt (10 ^ 4300))]] []) 2
     = inl ValueError.
Proof.
  cbv zeta. split; [discriminate|].
  split; [vm_compute; reflexivity|]. split; [vm_compute; reflexivity|].
  split; vm_compute; reflexivity.
Qed.

(** C6, amended.  Whenever [json.dumps] returns for the document, the
    canvas body is the JSON text of an object with the two keys "nodes" and
    "edges", in this order, each on a line of its own indented by two
    spaces; the value of each is the list as supplied: an empty list is
    written [[]], any other list as its elements in their order, each
    element once, on lines indented by four spaces; an element that is a
    dict is written with the fields it has and no other, on lines indented
    by six spaces.  When the nodes and edges are built from [None],
    [bool], [int], [str], lists and dicts with distinct [str] keys, with no
    high surrogate immediately followed by a low surrogate in a string,
    the values the text denotes are the supplied ones: a JSON parser that
    can go as deep reads them back.  This text is the [json] argument of
    the remote write. *)
Theorem canvas_json_layout (World Context : Type) (interp : Interpreter)
    (env : Collaborators World Context)
    (nodes edges : list value) (title folder : str) (project : option str)
    (context : option Context) (w : World) (body : str) :
  dumps interp (canvas_data nodes edges) 2 = inr body ->
  body
  = lit "{" ++ [10%N]
    ++ lit "  " ++ [QUOTE] ++ lit "nodes" ++ [QUOTE] ++ lit ": "
    ++ iterencode 2 1 (VList nodes) ++ lit "," ++ [10%N]
    ++ lit "  " ++ [QUOTE] ++ lit "edges" ++ [QUOTE] ++ lit ": "
    ++ iterencode 2 1 (VList edges) ++ [10%N]
    ++ lit "}"
  /\ (forall items,
        iterencode 2 1 (VList items)
        = match items with
          | [] => lit "[]"
          | _ :: _ =>
              lit "[" ++ [10%N] ++ lit "    "
              ++ join (lit "," ++ [10%N] ++ lit "    ")
                      (List.map (iterencode 2 2) items)
              ++ [10%N] ++ lit "  ]"
          end)
  /\ (forall fields,
        iterencode 2 2 (VDict fields)
        = match fields with
          | [] => lit "{}"
          | _ :: _ =>
              lit "{" ++ [10%N] ++ lit "      "
              ++ join (lit "," ++ [10%N] ++ lit "      ")
                      (List.map (fun kv => py_encode_basestring_ascii (fst kv)
                                           ++ lit ": " ++ iterencode 2 3 (snd kv))
                                fields)
              ++ [10%N] ++ lit "    }"
          end)
  /\ (forallb value_ok nodes = true -> forallb value_ok edges = true ->
      (nesting (VDict [(lit "nodes", VList nodes); (lit "edges", VList edges)])
       <= decoder_depth interp)%nat ->
      loads interp body
      = inr (VDict [(lit "nodes", VList nodes); (lit "edges", VList edges)]))
  /\ List.map snd
       (puts (events (canvas interp env nodes edges title folder project context w)))
     = match snd (get_active_project env context project w) with
       | inr _ => [VStr body]
       | inl _ => []
       end.
Proof.
  intros Hd. split; [|split; [|split; [|split]]].
  - apply dumps_text in Hd. subst body. apply canvas_json_top.
  - intros [|x items]; reflexivity.
  - intros [|kv fields]; reflexivity.
  - intros Hn He Hdepth. apply (loads_dumps interp _ 2); try assumption.
    cbn [value_ok canvas_data List.map fst snd forallb]. rewrite Hn, He. reflexivity.
  - rewrite canvas_puts, Hd.
    destruct (snd (get_active_project env context project w)); reflexivity.
Qed.

Lemma canvas_json_layout_witness :
  let nodes := [VDict [(lit "id", VStr (lit "n1")); (lit "x", VInt (-40))]] in
  let body := canvas_json nodes [] in
  body
  = lit "{" ++ [10%N]
    ++ lit "  " ++ [QUOTE] ++ lit "nodes" ++ [QUOTE] ++ lit ": "
    ++ iterencode 2 1 (VList nodes) ++ lit "," ++ [10%N]
    ++ lit "  " ++ [QUOTE] ++ lit "edges" ++ [QUOTE] ++ lit ": "
    ++ iterencode 2 1 (VList []) ++ [10%N]
    ++ lit "}"
  /\ (forall items,
        iterencode 2 1 (VList items)
        = match items with
          | [] => lit "[]"
          | _ :: _ =>
              lit "[" ++ [10%N] ++ lit "    "
              ++ join (lit "," ++ [10%N] ++ lit "    ")
                      (List.map (iterencode 2 2) items)
              ++ [10%N] ++ lit "  ]"
          end)
  /\ (forall fields,
        iterencode 2 2 (VDict fields)
        = match fields with
          | [] => lit "{}"
          | _ :: _ =>
              lit "{" ++ [10%N] ++ lit "      "
              ++ join (lit "," ++ [10%N] ++ lit "      ")
                      (List.map (fun kv => py_encode_basestring_ascii (fst kv)
                                           ++ lit ": " ++ iterencode 2 3 (snd kv))
                                fields)
              ++ [10%N] ++ lit "    }"
          end)
  /\ (forallb value_ok nodes = true -> forallb value_ok [] = true ->
      (nesting (VDict [(lit "nodes", VList nodes); (lit "edges", VList [])])
       <= decoder_depth Server.interpreter)%nat ->
      loads Server.interpreter body
      = inr (VDict [(lit "nodes", VList nodes); (lit "edges", VList [])]))
  /\ List.map snd
       (puts (events (canvas Server.interpreter Server.env nodes [] (lit "Map")
                        (lit "diagrams") None None [])))
     = match snd (get_active_project Server.env None None []) with
       | inr _ => [VStr body]
       | inl _ => []
       end.
Proof.
  cbv zeta.
  apply (@canvas_json_layout _ _ Server.interpreter Server.env
           [VDict [(lit "id", VStr (lit "n1")); (lit "x", VInt (-40))]] []
           (lit "Map") (lit "diagrams") None None []).
  vm_compute. reflexivity.
Defined.

(** The document of scenario 1. *)
Example empty_canvas_json :
  dumps Server.interpreter (canvas_data [] []) 2
  = inr (lit "{" ++ [10%N] ++ lit "  " ++ [QUOTE] ++ lit "nodes" ++ [QUOTE] ++ lit ": [],"
         ++ [10%N] ++ lit "  " ++ [QUOTE] ++ lit "edges" ++ [QUOTE] ++ lit ": []"
         ++ [10%N] ++ lit "}").
Proof. reflexivity. Qed.

(** C7 as stated fails: a string that holds a high surrogate followed by a
    low surrogate, as two characters, is read back as one character. *)
Lemma canvas_json_roundtrip_counterexample :
  let nodes := [VDict [(lit "id", VStr [55357; 56832]%N)]] in
  exists body,
    dumps Server.interpreter (canvas_data nodes []) 2 = inr body
    /\ loads Server.interpreter body
       = inr (canvas_data [VDict [(lit "id", VStr [128512%N])]] [])
    /\ loads Server.interpreter body <> inr (canvas_data nodes []).
Proof.
  cbv zeta. eexists. split; [vm_compute; reflexivity|].
  split; [vm_compute; reflexivity | vm_compute; discriminate].
Qed.

(** C7, amended.  For nodes and edges built from [None], [bool], [int],
    [str], lists and dicts with pairwise distinct [str] keys (no [float]),
    in whose strings no high surrogate is immediately followed by a low
    surrogate, and for which [json.dumps] returns (no integer has more
    digits than the limit on integer strings, and the nesting is within
    what the encoder can go), parsing the text back with a decoder that
    can go as deep gives a dict with exactly the keys "nodes" and "edges"
    whose values are the lists that were supplied: same elements, same
    order, same fields. *)
Theorem canvas_json_roundtrip (interp : Interpreter) (nodes edges : list value)
    (body : str) :
  forallb value_ok nodes = true -> forallb value_ok edges = true ->
  dumps interp (canvas_data nodes edges) 2 = inr body ->
  (nesting (VDict [(lit "nodes", VList nodes); (lit "edges", VList edges)])
   <= decoder_depth interp)%nat ->
  loads interp body
  = inr (VDict [(lit "nodes", VList nodes); (lit "edges", VList edges)]).
Proof.
  intros Hn He Hd Hdepth. apply (loads_dumps interp _ 2); try assumption.
  cbn [value_ok canvas_data List.map fst snd forallb].
  rewrite Hn, He. reflexivity.
Qed.

(** Scenario 5 of the specification: a text node without a [file] field
    and an edge without sides come back as they were. *)
Lemma canvas_json_roundtrip_witness :
  let nodes :=
    [VDict [(lit "id", VStr (lit "n1")); (lit "type", VStr (lit "text"));
            (lit "x", VInt 0); (lit "y", VInt (-40));
            (lit "width", VInt 400); (lit "height", VInt 300);
            (lit "text", VStr (lit "caf" ++ [233; 10; 128512]%N))]] in
  let edges :=
    [VDict [(lit "id", VStr (lit "e1")); (lit "fromNode", VStr (lit "n1"));
            (lit "toNode", VStr (lit "n1"))]] in
  loads Server.interpreter (canvas_json nodes edges)
  = inr (VDict [(lit "nodes", VList nodes); (lit "edges", VList edges)]).
Proof.
  cbv zeta.
  apply (@canvas_json_roundtrip Server.interpreter
           [VDict [(lit "id", VStr (lit "n1")); (lit "type", VStr (lit "text"));
                   (lit "x", VInt 0); (lit "y", VInt (-40));
                   (lit "width", VInt 400); (lit "height", VInt 300);
                   (lit "text", VStr (lit "caf" ++ [233; 10; 128512]%N))]]
           [VDict [(lit "id", VStr (lit "e1")); (lit "fromNode", VStr (lit "n1"));
                   (lit "toNode", VStr (lit "n1"))]]).
  - reflexivity.
  - reflexivity.
  - vm_compute. reflexivity.
  - vm_compute. lia.
Defined.

(** The node of scenario 5 conforms to the declaration of [CanvasNode]
    and has no [file] field, before and after the round trip. *)
Example text_node_conforms :
  let node :=
    VDict [(lit "id", VStr (lit "n1")); (lit "type", VStr (lit "text"));
           (lit "x", VInt 0); (lit "y", VInt (-40));
           (lit "width", VInt 400); (lit "height", VInt 300);
           (lit "text", VStr (lit "caf" ++ [233; 10; 128512]%N))] in
  conforms CanvasNode node = true
  /\ value_ok node = true
  /\ loads Server.interpreter (canvas_json [node] []) = inr (canvas_data [node] []).
Proof. vm_compute. repeat split. Qed.

(** C8.  When project resolution raises, the invocation raises the same
    exception, leaves the outside state as resolution left it, and has
    produced no event: the remote write was never called. *)
Theorem canvas_resolution_failure (World Context : Type) (interp : Interpreter)
    (env : Collaborators World Context)
    (nodes edges : list value) (title folder : str) (project : option str)
    (context : option Context) (w w1 : World) (e : exn) :
  get_active_project env context project w = (w1, inl e) ->
  outcome (canvas interp env nodes edges title folder project context w) = inl e
  /\ events (canvas interp env nodes edges title folder project context w) = []
  /\ puts (events (canvas interp env nodes edges title folder project context w)) = []
  /\ world (canvas interp env nodes edges title folder project context w) = w1.
Proof. intros H. rewrite canvas_run, H. repeat split. Qed.

(** Scenario 4 of the specification. *)
Lemma canvas_resolution_failure_witness :
  outcome (canvas Server.interpreter Server.env [] [] (lit "Map") (lit "diagrams")
             (Some (lit "missing-project")) None [])
  = inl (Raised "ProjectResolutionError")
  /\ events (canvas Server.interpreter Server.env [] [] (lit "Map") (lit "diagrams")
               (Some (lit "missing-project")) None []) = []
  /\ puts (events (canvas Server.interpreter Server.env [] [] (lit "Map") (lit "diagrams")
                     (Some (lit "missing-project")) None [])) = []
  /\ world (canvas Server.interpreter Server.env [] [] (lit "Map") (lit "diagrams")
              (Some (lit "missing-project")) None []) = [].
Proof.
  apply (@canvas_resolution_failure _ _ Server.interpreter Server.env [] []
           (lit "Map") (lit "diagrams")
           (Some (lit "missing-project")) None [] [] (Raised "ProjectResolutionError")).
  reflexivity.
Defined.

(** C9 as stated fails: project resolution succeeds, and the invocation
    issues no remote write, because [json.dumps] raises on a node that
    conforms to the declaration of [CanvasNode] and holds an integer of
    4301 digits. *)
Lemma canvas_no_put_counterexample :
  let node := VDict [(lit "id", VStr (lit "n1")); (lit "x", VInt (10 ^ 4300))] in
  let r := canvas Server.interpreter Server.env [node] [] (lit "Map") (lit "diagrams")
             None None [] in
  conforms CanvasNode node = true
  /\ snd (get_active_project Server.env None None [])
     = inr {| project_url := lit "/main" |}
  /\ puts (events r) = []
  /\ outcome r = inl ValueError.
Proof. vm_compute. repeat split. Qed.

(** C9, amended.  An invocation calls the remote write once when project
    resolution and the serialization of the document both return, and not
    at all when either raises; whatever the write answers, there is no
    second call. *)
Theorem canvas_one_put (World Context : Type) (interp : Interpreter)
    (env : Collaborators World Context)
    (nodes edges : list value) (title folder : str) (project : option str)
    (context : option Context) (w : World) :
  length (puts (events (canvas interp env nodes edges title folder project context w)))
  = match snd (get_active_project env context project w),
          dumps interp (canvas_data nodes edges) 2 with
    | inr _, inr _ => 1%nat
    | _, _ => 0%nat
    end
  /\ (length (puts (events (canvas interp env nodes edges title folder project context w)))
      <= 1)%nat.
Proof.
  rewrite canvas_puts.
  destruct (snd (get_active_project env context project w));
    [cbn [length]; lia|].
  destruct (dumps interp (canvas_data nodes edges) 2); cbn [length]; lia.
Qed.

(** A write that fails is not tried again. *)
Example no_retry_after_failure :
  let failing : Collaborators Server.store unit :=
    {| get_active_project := Server.resolve;
       call_put := fun _ _ w => (w, inl (Raised "ToolError")) |} in
  let r := canvas Server.interpreter failing [] [] (lit "Map") (lit "diagrams")
             None None [] in
  outcome r = inl (Raised "ToolError") /\ length (puts (events r)) = 1%nat.
Proof. vm_compute. split; reflexivity. Qed.

(** C10.  Two successful invocations with the same title and folder whose
    writes were answered with the same status code return the same string,
    whatever their nodes and edges (and whatever their projects,
    collaborators and interpreters). *)
Theorem canvas_summary_independent (World Context : Type)
    (interp interp' : Interpreter) (env env' : Collaborators World Context)
    (nodes edges nodes' edges' : list value) (title folder : str)
    (project project' : option str) (context context' : option Context)
    (w w' : World) (returned returned' : str) :
  outcome (canvas interp env nodes edges title folder project context w) = inr returned ->
  outcome (canvas interp' env' nodes' edges' title folder project' context' w')
  = inr returned' ->
  List.map status_code
    (responses (events (canvas interp env nodes edges title folder project context w)))
  = List.map status_code
      (responses (events (canvas interp' env' nodes' edges' title folder project'
                            context' w'))) ->
  returned = returned'.
Proof.
  rewrite !canvas_run.
  destruct (get_active_project env context project w) as [w1 [e|p]]; [discriminate|].
  destruct (get_active_project env' context' project' w') as [w1' [e|p']]; [discriminate|].
  destruct (dumps interp (canvas_data nodes edges) 2) as [e|t]; [discriminate|].
  destruct (dumps interp' (canvas_data nodes' edges') 2) as [e|t']; [discriminate|].
  cbv zeta.
  destruct (call_put env _ _ w1) as [w2 [e|response]]; [discriminate|].
  destruct (call_put env' _ _ w1') as [w2' [e|response']]; [discriminate|].
  destruct (Response_json interp response); [discriminate|].
  destruct (Response_json interp' response'); [discriminate|].
  cbn [outcome events responses List.map]. intros H H' Hs.
  injection H as <-. injection H' as <-. injection Hs as Hs.
  unfold summary, action. now rewrite Hs.
Qed.

Lemma canvas_summary_independent_witness :
  match outcome (canvas Server.interpreter Server.env [] [] (lit "Map") (lit "diagrams")
                   None None []),
        outcome (canvas Server.interpreter Server.env
                   [VDict [(lit "id", VStr (lit "n1"))]] [VDict []]
                   (lit "Map") (lit "diagrams") (Some (lit "work-project")) None [])
  with
  | inr returned, inr returned' => returned = returned'
  | _, _ => False
  end.
Proof.
  cbv beta iota.
  apply (@canvas_summary_independent _ _ Server.interpreter Server.interpreter
           Server.env Server.env
           [] [] [VDict [(lit "id", VStr (lit "n1"))]] [VDict []]
           (lit "Map") (lit "diagrams") None (Some (lit "work-project")) None None
           [] []); vm_compute; reflexivity.
Defined.

(* ================================================================== *)
(** * Further properties of the tool *)

(** ** The file title and the destination path *)

Lemma endswith_app (stem suffix : str) : endswith (stem ++ suffix) suffix = true.
Proof. apply endswith_iff. now exists stem. Qed.

Lemma endswith_length (s suffix : str) :
  endswith s suffix = true -> (length suffix <= length s)%nat.
Proof.
  unfold endswith. intros H. apply andb_true_iff in H as [H _].
  now apply Nat.leb_le.
Qed.

Lemma file_title_suffix (title : str) :
  exists stem, file_title title = stem ++ lit ".canvas".
Proof.
  unfold file_title. destruct (endswith title (lit ".canvas")) eqn:E.
  - now apply endswith_iff.
  - now exists title.
Qed.

(** X1.  The normalized file title always ends with ".canvas", and
    normalizing it again changes nothing. *)
Theorem file_title_idempotent (title : str) :
  endswith (file_title title) (lit ".canvas") = true
  /\ file_title (file_title title) = file_title title.
Proof.
  assert (H : endswith (file_title title) (lit ".canvas") = true).
  { destruct (file_title_suffix title) as [stem ->]. apply endswith_app. }
  split; [exact H|]. unfold file_title at 1. now rewrite H.
Qed.

(** X2.  Two titles are written to the same file exactly when they are
    equal or one of them is the other, not itself ending with ".canvas",
    followed by ".canvas". *)
Theorem file_title_collision (a b : str) :
  file_title a = file_title b
  <-> a = b
      \/ (endswith b (lit ".canvas") = false /\ a = b ++ lit ".canvas")
      \/ (endswith a (lit ".canvas") = false /\ b = a ++ lit ".canvas").
Proof.
  unfold file_title. split.
  - destruct (endswith a (lit ".canvas")) eqn:Ea,
             (endswith b (lit ".canvas")) eqn:Eb; intros H.
    + now left.
    + right; left. now split.
    + right; right. now split.
    + left. now apply app_inv_tail in H.
  - intros [->|[[Eb ->]|[Ea ->]]].
    + reflexivity.
    + now rewrite endswith_app, Eb.
    + now rewrite endswith_app, Ea.
Qed.

(** X3.  The normalized file title has at least seven characters, and a
    title of fewer than seven characters always gets ".canvas" appended. *)
Theorem file_title_short (title : str) :
  (7 <= length (file_title title))%nat
  /\ ((length title < 7)%nat -> file_title title = title ++ lit ".canvas").
Proof.
  unfold file_title. destruct (endswith title (lit ".canvas")) eqn:E.
  - apply endswith_length in E. cbn in E. split; [exact E | lia].
  - split; [|reflexivity]. rewrite length_app. cbn. lia.
Qed.

Lemma file_title_short_witness :
  (7 <= length (file_title (lit "Map")))%nat
  /\ file_title (lit "Map") = lit "Map" ++ lit ".canvas".
Proof.
  split.
  - apply (proj1 (file_title_short (lit "Map"))).
  - apply (proj2 (file_title_short (lit "Map"))). simpl. lia.
Defined.

(** X4.  The test for the suffix is exact: a title whose last seven
    characters are anything other than ".canvas" (another extension, or
    the same letters in upper case) gets ".canvas" appended. *)
Theorem file_title_other_ending (stem ending : str) :
  length ending = 7%nat -> ending <> lit ".canvas" ->
  file_title (stem ++ ending) = stem ++ ending ++ lit ".canvas".
Proof.
  intros Hlen Hne. unfold file_title.
  destruct (endswith (stem ++ ending) (lit ".canvas")) eqn:E.
  - exfalso. apply Hne. unfold endswith in E.
    apply andb_true_iff in E as [_ E]. apply eqb_eq in E.
    rewrite length_app, Hlen in E. cbn [length lit List.map list_ascii_of_string] in E.
    replace (length stem + 7 - 7)%nat with (length stem + 0)%nat in E by lia.
    now rewrite skipn_app, Nat.add_0_r, skipn_all, Nat.sub_diag in E.
  - now rewrite <- app_assoc.
Qed.

Lemma file_title_other_ending_witness :
  file_title (lit "Map" ++ lit ".CANVAS") = lit "Map" ++ lit ".CANVAS" ++ lit ".canvas".
Proof.
  apply (file_title_other_ending (lit "Map") (ending := lit ".CANVAS")).
  - reflexivity.
  - discriminate.
Defined.

(** X5.  The URL of every remote write starts with the project URL
    followed by "/resource/" and ends with ".canvas", whatever the folder
    and the title. *)
Theorem canvas_url_shape (World Context : Type) (interp : Interpreter)
    (env : Collaborators World Context)
    (nodes edges : list value) (title folder : str) (project : option str)
    (context : option Context) (w : World) (url : str) :
  In url (List.map fst
            (puts (events (canvas interp env nodes edges title folder project context w)))) ->
  endswith url (lit ".canvas") = true
  /\ exists p w1 rest,
       get_active_project env context project w = (w1, inr p)
       /\ url = project_url p ++ lit "/resource/" ++ rest.
Proof.
  rewrite canvas_puts.
  destruct (get_active_project env context project w) as [w1 [e|p]];
    cbn [snd]; [intros []|].
  destruct (dumps interp (canvas_data nodes edges) 2);
    cbn [List.map fst In]; [intros []|].
  intros [<-|[]]. split.
  - unfold file_path. destruct (file_title_suffix title) as [stem ->].
    rewrite !app_assoc. apply endswith_app.
  - now exists p, w1, (file_path folder title).
Qed.

Lemma canvas_url_shape_witness :
  endswith (lit "/main/resource/diagrams/Map.canvas") (lit ".canvas") = true
  /\ exists p w1 rest,
       get_active_project Server.env None None [] = (w1, inr p)
       /\ lit "/main/resource/diagrams/Map.canvas"
          = project_url p ++ lit "/resource/" ++ rest.
Proof.
  apply (@canvas_url_shape _ _ Server.interpreter Server.env [] [] (lit "Map")
           (lit "diagrams") None None []).
  vm_compute. now left.
Defined.

(** ** What an invocation has done when it stops *)

(** X6.  When the remote write, called with the text [json.dumps]
    returned, raises, the invocation raises the same exception.  By then it
    has written its info record and called the write once; it has written
    no debug record, and it leaves the outside state as the failed write
    left it. *)
Theorem canvas_write_failure (World Context : Type) (interp : Interpreter)
    (env : Collaborators World Context)
    (nodes edges : list value) (title folder : str) (project : option str)
    (context : option Context) (w w1 w2 : World) (p : Project) (e : exn) :
  get_active_project env context project w = (w1, inr p) ->
  dumps interp (canvas_data nodes edges) 2 = inr (canvas_json nodes edges) ->
  call_put env (project_url p ++ lit "/resource/" ++ file_path folder title)
    (VStr (canvas_json nodes edges)) w1 = (w2, inl e) ->
  outcome (canvas interp env nodes edges title folder project context w) = inl e
  /\ events (canvas interp env nodes edges title folder project context w)
     = [ Info (lit "Creating canvas file: " ++ file_path folder title);
         Put (project_url p ++ lit "/resource/" ++ file_path folder title)
             (VStr (canvas_json nodes edges)) (inl e) ]
  /\ world (canvas interp env nodes edges title folder project context w) = w2.
Proof.
  intros Hp Hd Hr. rewrite canvas_run, Hp, Hd. cbv zeta. rewrite Hr. repeat split.
Qed.

Lemma canvas_write_failure_witness :
  outcome (canvas Server.interpreter (refusing (Raised "ToolError")) [] [] (lit "Map")
             (lit "diagrams") None None []) = inl (Raised "ToolError")
  /\ events (canvas Server.interpreter (refusing (Raised "ToolError")) [] [] (lit "Map")
               (lit "diagrams") None None [])
     = [ Info (lit "Creating canvas file: " ++ file_path (lit "diagrams") (lit "Map"));
         Put (project_url {| project_url := lit "/main" |} ++ lit "/resource/"
              ++ file_path (lit "diagrams") (lit "Map"))
             (VStr (canvas_json [] [])) (inl (Raised "ToolError")) ]
  /\ world (canvas Server.interpreter (refusing (Raised "ToolError")) [] [] (lit "Map")
              (lit "diagrams") None None []) = [].
Proof.
  apply (@canvas_write_failure _ _ Server.interpreter (refusing (Raised "ToolError"))
           [] [] (lit "Map") (lit "diagrams") None None [] [] []
           {| project_url := lit "/main" |} (Raised "ToolError")); reflexivity.
Defined.

(** X7.  When the write returns a response on which [response.json()]
    raises (a body that is not JSON, for one), the invocation raises that
    exception after the write has been made: the request was sent and
    answered, the outside state is the one the write left, and only the
    debug record and the summary are missing. *)
Theorem canvas_decode_failure (World Context : Type) (interp : Interpreter)
    (env : Collaborators World Context)
    (nodes edges : list value) (title folder : str) (project : option str)
    (context : option Context) (w w1 w2 : World) (p : Project) (response : Response)
    (e : exn) :
  get_active_project env context project w = (w1, inr p) ->
  dumps interp (canvas_data nodes edges) 2 = inr (canvas_json nodes edges) ->
  call_put env (project_url p ++ lit "/resource/" ++ file_path folder title)
    (VStr (canvas_json nodes edges)) w1 = (w2, inr response) ->
  Response_json interp response = inl e ->
  outcome (canvas interp env nodes edges title folder project context w) = inl e
  /\ events (canvas interp env nodes edges title folder project context w)
     = [ Info (lit "Creating canvas file: " ++ file_path folder title);
         Put (project_url p ++ lit "/resource/" ++ file_path folder title)
             (VStr (canvas_json nodes edges)) (inr response) ]
  /\ world (canvas interp env nodes edges title folder project context w) = w2.
Proof.
  intros Hp Hd Hr Hl. rewrite canvas_run, Hp, Hd. cbv zeta. rewrite Hr, Hl.
  repeat split.
Qed.

Lemma canvas_decode_failure_witness :
  let response := {| status_code := 200; text := Some (lit "<html>") |} in
  let url := lit "/main/resource/diagrams/Map.canvas" in
  outcome (canvas Server.interpreter (Server.answering response) [] [] (lit "Map")
             (lit "diagrams") None None []) = inl JSONDecodeError
  /\ events (canvas Server.interpreter (Server.answering response) [] [] (lit "Map")
               (lit "diagrams") None None [])
     = [ Info (lit "Creating canvas file: " ++ file_path (lit "diagrams") (lit "Map"));
         Put (project_url {| project_url := lit "/main" |} ++ lit "/resource/"
              ++ file_path (lit "diagrams") (lit "Map"))
             (VStr (canvas_json [] [])) (inr response) ]
  /\ world (canvas Server.interpreter (Server.answering response) [] [] (lit "Map")
              (lit "diagrams") None None []) = [(url, VStr (canvas_json [] []))].
Proof.
  cbv zeta.
  apply (@canvas_decode_failure _ _ Server.interpreter
           (Server.answering {| status_code := 200; text := Some (lit "<html>") |}) [] []
           (lit "Map") (lit "diagrams") None None [] []
           [(lit "/main/resource/diagrams/Map.canvas", VStr (canvas_json [] []))]
           {| project_url := lit "/main" |}
           {| status_code := 200; text := Some (lit "<html>") |} JSONDecodeError);
    reflexivity.
Defined.

(** X8.  A successful invocation has produced exactly three events, in
    this order: the info record "Creating canvas file: " followed by the
    destination path, the remote write, and the debug record of the
    object decoded from the body of the response.  It leaves the outside
    state as the write left it. *)
Theorem canvas_success_trace (World Context : Type) (interp : Interpreter)
    (env : Collaborators World Context)
    (nodes edges : list value) (title folder : str) (project : option str)
    (context : option Context) (w : World) (returned : str) :
  outcome (canvas interp env nodes edges title folder project context w) = inr returned ->
  exists w1 w2 p response result,
    get_active_project env context project w = (w1, inr p)
    /\ dumps interp (canvas_data nodes edges) 2 = inr (canvas_json nodes edges)
    /\ call_put env (project_url p ++ lit "/resource/" ++ file_path folder title)
         (VStr (canvas_json nodes edges)) w1 = (w2, inr response)
    /\ Response_json interp response = inr result
    /\ events (canvas interp env nodes edges title folder project context w)
       = [ Info (lit "Creating canvas file: " ++ file_path folder title);
           Put (project_url p ++ lit "/resource/" ++ file_path folder title)
               (VStr (canvas_json nodes edges)) (inr response);
           Debug result ]
    /\ world (canvas interp env nodes edges title folder project context w) = w2.
Proof.
  rewrite canvas_run.
  destruct (get_active_project env context project w) as [w1 [e|p]]; [discriminate|].
  destruct (dumps interp (canvas_data nodes edges) 2) as [e|t] eqn:Hd; [discriminate|].
  pose proof Hd as Ht. apply dumps_text in Ht. subst t. fold (canvas_json nodes edges) in Hd.
  cbv zeta.
  destruct (call_put env (project_url p ++ lit "/resource/" ++ file_path folder title)
              (VStr (canvas_json nodes edges)) w1) as [w2 [e|response]] eqn:Hr;
    [discriminate|].
  destruct (Response_json interp response) as [e|result] eqn:Hl; [discriminate|].
  intros _. exists w1, w2, p, response, result. repeat split; assumption.
Qed.

Lemma canvas_success_trace_witness :
  exists w1 w2 p response result,
    get_active_project Server.env None None [] = (w1, inr p)
    /\ dumps Server.interpreter (canvas_data [] []) 2 = inr (canvas_json [] [])
    /\ call_put Server.env
         (project_url p ++ lit "/resource/" ++ file_path (lit "diagrams") (lit "Map"))
         (VStr (canvas_json [] [])) w1 = (w2, inr response)
    /\ Response_json Server.interpreter response = inr result
    /\ events (canvas Server.interpreter Server.env [] [] (lit "Map") (lit "diagrams")
                 None None [])
       = [ Info (lit "Creating canvas file: " ++ file_path (lit "diagrams") (lit "Map"));
           Put (project_url p ++ lit "/resource/"
                ++ file_path (lit "diagrams") (lit "Map"))
               (VStr (canvas_json [] [])) (inr response);
           Debug result ]
    /\ world (canvas Server.interpreter Server.env [] [] (lit "Map") (lit "diagrams")
                None None []) = w2.
Proof.
  apply (@canvas_success_trace _ _ Server.interpreter Server.env [] [] (lit "Map")
           (lit "diagrams") None None []
           (lit "# Created: diagrams/Map.canvas" ++ [10; 10]%N
            ++ lit "The canvas is ready to open in Obsidian.")).
  vm_compute. reflexivity.
Defined.

(** ** The body of the response *)

Lemma loads_blank (interp : Interpreter) (s : str) :
  skip_ws s = [] -> loads interp s = inl JSONDecodeError.
Proof.
  intros H. unfold loads. rewrite H.
  destruct (startswith s [65279%N]); reflexivity.
Qed.

(** X9.  A response whose body is empty or holds only whitespace makes
    the invocation raise the decoder's error, whatever its status code. *)
Theorem canvas_blank_body (World Context : Type) (interp : Interpreter)
    (env : Collaborators World Context)
    (nodes edges : list value) (title folder : str) (project : option str)
    (context : option Context) (w w1 w2 : World) (p : Project) (response : Response)
    (body : str) :
  get_active_project env context project w = (w1, inr p) ->
  dumps interp (canvas_data nodes edges) 2 = inr (canvas_json nodes edges) ->
  call_put env (project_url p ++ lit "/resource/" ++ file_path folder title)
    (VStr (canvas_json nodes edges)) w1 = (w2, inr response) ->
  text response = Some body -> skip_ws body = [] ->
  outcome (canvas interp env nodes edges title folder project context w)
  = inl JSONDecodeError.
Proof.
  intros Hp Hd Hr Ht Hb. rewrite canvas_run, Hp, Hd. cbv zeta.
  rewrite Hr. unfold Response_json. now rewrite Ht, (loads_blank _ _ Hb).
Qed.

Lemma canvas_blank_body_witness :
  outcome (canvas Server.interpreter
             (Server.answering {| status_code := 204; text := Some [] |}) [] []
             (lit "Map") (lit "diagrams") None None []) = inl JSONDecodeError.
Proof.
  apply (@canvas_blank_body _ _ Server.interpreter
           (Server.answering {| status_code := 204; text := Some [] |}) [] []
           (lit "Map") (lit "diagrams") None None [] []
           [(lit "/main/resource/diagrams/Map.canvas", VStr (canvas_json [] []))]
           {| project_url := lit "/main" |} {| status_code := 204; text := Some [] |} []);
    reflexivity.
Defined.

(** X10.  The body need not be a JSON object: when it is the JSON text of
    any well-formed object (a list, a string, a number, [null], ...), at
    any indentation, whose integers are within the limit on integer
    strings and which is nested no deeper than the decoder can go, the
    invocation succeeds, and its debug record holds that object. *)
Theorem canvas_any_json_body (World Context : Type) (interp : Interpreter)
    (env : Collaborators World Context)
    (nodes edges : list value) (title folder : str) (project : option str)
    (context : option Context) (w w1 w2 : World) (p : Project) (response : Response)
    (obj : value) (indent : nat) :
  get_active_project env context project w = (w1, inr p) ->
  dumps interp (canvas_data nodes edges) 2 = inr (canvas_json nodes edges) ->
  call_put env (project_url p ++ lit "/resource/" ++ file_path folder title)
    (VStr (canvas_json nodes edges)) w1 = (w2, inr response) ->
  value_ok obj = true ->
  ints_within (max_str_digits interp) obj = true ->
  (nesting obj <= decoder_depth interp)%nat ->
  text response = Some (iterencode indent 0 obj) ->
  outcome (canvas interp env nodes edges title folder project context w)
  = inr (join [10%N] (summary response folder title))
  /\ last (events (canvas interp env nodes edges title folder project context w))
          (Debug VNone)
     = Debug obj.
Proof.
  intros Hp Hd Hr Hok Hint Hdepth Ht. rewrite canvas_run, Hp, Hd. cbv zeta.
  rewrite Hr. unfold Response_json.
  rewrite Ht, (loads_iterencode interp obj indent Hok Hint Hdepth). split; reflexivity.
Qed.

Lemma canvas_any_json_body_witness :
  let response := {| status_code := 200;
                     text := Some (iterencode 4 0 (VList [VInt 1; VStr (lit "ok")])) |} in
  outcome (canvas Server.interpreter (Server.answering response) [] [] (lit "Map")
             (lit "diagrams") None None [])
  = inr (join [10%N] (summary response (lit "diagrams") (lit "Map")))
  /\ last (events (canvas Server.interpreter (Server.answering response) [] [] (lit "Map")
                     (lit "diagrams") None None []))
          (Debug VNone)
     = Debug (VList [VInt 1; VStr (lit "ok")]).
Proof.
  cbv zeta.
  apply (@canvas_any_json_body _ _ Server.interpreter
           (Server.answering
              {| status_code := 200;
                 text := Some (iterencode 4 0 (VList [VInt 1; VStr (lit "ok")])) |}) [] []
           (lit "Map") (lit "diagrams") None None [] []
           [(lit "/main/resource/diagrams/Map.canvas", VStr (canvas_json [] []))]
           {| project_url := lit "/main" |}
           {| status_code := 200;
              text := Some (iterencode 4 0 (VList [VInt 1; VStr (lit "ok")])) |}
           (VList [VInt 1; VStr (lit "ok")]) 4); try reflexivity.
  vm_compute. lia.
Defined.

(** ** The canvas body *)

Ltac each_char := repeat (apply Forall_cons || apply Forall_nil).

Ltac printable_literal :=
  unfold printable_text; each_char; right; vm_compute; split; discriminate.

Lemma printable_text_app (a b : str) :
  printable_text a -> printable_text b -> printable_text (a ++ b).
Proof. intros Ha Hb. apply Forall_app. now split. Qed.

Lemma hexdigit_printable (d : N) : (d < 16)%N -> printable (hexdigit d).
Proof. unfold hexdigit, printable. intros H. destruct (N.ltb_spec d 10); lia. Qed.

Lemma u_escape_printable (n : N) : printable_text (u_escape n).
Proof.
  unfold u_escape, format_04x, BACKSLASH, printable_text.
  each_char; try (unfold printable; lia);
    apply hexdigit_printable, N.mod_lt; lia.
Qed.

Lemma replace_printable (c : N) : printable_text (replace c).
Proof.
  unfold replace, QUOTE, BACKSLASH.
  repeat match goal with
         | |- context [(c =? ?k)%N] =>
             destruct (N.eqb_spec c k);
             [unfold printable_text; each_char; unfold printable; lia|]
         end.
  destruct (N.leb_spec 32 c), (N.leb_spec c 126); cbn [andb];
    try (unfold printable_text; each_char; unfold printable; lia);
    destruct (N.ltb_spec c 65536);
    try apply printable_text_app; apply u_escape_printable.
Qed.

Lemma py_encode_basestring_ascii_printable (s : str) :
  printable_text (py_encode_basestring_ascii s).
Proof.
  unfold py_encode_basestring_ascii.
  apply Forall_cons; [unfold printable, QUOTE; lia|].
  apply printable_text_app;
    [|unfold printable_text; each_char; unfold printable, QUOTE; lia].
  induction s as [|c s IH]; [apply Forall_nil|]. cbn [flat_map].
  apply printable_text_app; [apply replace_printable | exact IH].
Qed.

Lemma numeral_printable (n : Z) : printable_text (numeral n).
Proof.
  assert (H : forall u, printable_text (uint_chars u)).
  { induction u; cbn [uint_chars]; [apply Forall_nil|..];
      (apply Forall_cons; [right; vm_compute; split; discriminate | assumption]). }
  unfold numeral. destruct (Z.to_int n); [apply H|].
  apply Forall_cons; [unfold printable; lia | apply H].
Qed.

Lemma newline_indent_printable (indent level : nat) :
  printable_text (newline_indent indent level).
Proof.
  unfold newline_indent, times. apply Forall_cons; [now left|].
  induction (indent * level)%nat; cbn [repeat];
    [apply Forall_nil | apply Forall_cons; [unfold printable; lia | assumption]].
Qed.

Lemma join_printable (sep : str) (parts : list str) :
  printable_text sep -> Forall printable_text parts -> printable_text (join sep parts).
Proof.
  intros Hsep Hparts. induction Hparts as [|p parts Hp Hparts IH]; [apply Forall_nil|].
  destruct parts as [|q parts]; [exact Hp|].
  rewrite join_cons by discriminate. repeat apply printable_text_app; assumption.
Qed.

Lemma iterencode_printable (indent : nat) (v : value) :
  forall level, float_free v = true -> printable_text (iterencode indent level v).
Proof.
  assert (Hsep : forall level,
             printable_text (item_separator ++ newline_indent indent level)).
  { intros level. apply printable_text_app; [printable_literal|].
    apply newline_indent_printable. }
  induction v as [ | [|] | n | numeral | s | items IH | items IH ] using value_induction;
    intros level Hff; try discriminate Hff.
  - printable_literal.
  - printable_literal.
  - printable_literal.
  - apply numeral_printable.
  - apply py_encode_basestring_ascii_printable.
  - destruct items as [|x items]; [printable_literal|].
    cbn [iterencode float_free] in *. rewrite forallb_forall in Hff.
    repeat apply printable_text_app;
      try apply newline_indent_printable; try printable_literal.
    apply join_printable; [apply Hsep|].
    apply Forall_map. rewrite Forall_forall in *. intros y Hy.
    apply IH; [assumption | now apply Hff].
  - destruct items as [|x items]; [printable_literal|].
    cbn [iterencode float_free] in *. rewrite forallb_forall in Hff.
    repeat apply printable_text_app;
      try apply newline_indent_printable; try printable_literal.
    apply join_printable; [apply Hsep|].
    apply Forall_map. rewrite Forall_forall in *. intros y Hy.
    repeat apply printable_text_app.
    + apply py_encode_basestring_ascii_printable.
    + printable_literal.
    + apply IH; [assumption | now apply Hff].
Qed.

(** X11.  Whatever characters the strings of the nodes and edges hold
    (control characters, non-ASCII letters, emoji, surrogates), the canvas
    body of nodes and edges without floats consists of newlines and
    printable ASCII characters only: everything else is written as an
    escape. *)
Theorem canvas_json_printable (nodes edges : list value) :
  forallb float_free nodes = true -> forallb float_free edges = true ->
  forall c, In c (canvas_json nodes edges) -> (c = 10 \/ 32 <= c <= 126)%N.
Proof.
  intros Hn He.
  assert (H : printable_text (canvas_json nodes edges)).
  { apply iterencode_printable. cbn [float_free canvas_data forallb snd].
    now rewrite Hn, He. }
  intros c Hc. unfold printable_text in H. rewrite Forall_forall in H.
  now apply H.
Qed.

Lemma canvas_json_printable_witness :
  printable_text (canvas_json [VDict [(lit "text", VStr [9; 233; 128512; 55357]%N)]] []).
Proof.
  apply Forall_forall.
  apply (@canvas_json_printable [VDict [(lit "text", VStr [9; 233; 128512; 55357]%N)]] []);
    reflexivity.
Defined.

(** X12.  Two well-formed canvas documents with the same JSON text are the
    same document: the text determines the nodes and the edges, their
    order and their fields. *)
Theorem canvas_json_injective (nodes edges nodes' edges' : list value) :
  forallb value_ok nodes = true -> forallb value_ok edges = true ->
  forallb value_ok nodes' = true -> forallb value_ok edges' = true ->
  canvas_json nodes edges = canvas_json nodes' edges' ->
  nodes = nodes' /\ edges = edges'.
Proof.
  intros Hn He Hn' He' E.
  pose (interp := {| max_str_digits := 0; encoder_depth := 0;
                     decoder_depth := Nat.max (nesting (canvas_data nodes edges))
                                              (nesting (canvas_data nodes' edges')) |}).
  assert (H : loads interp (canvas_json nodes edges)
              = inr (VDict [(lit "nodes", VList nodes); (lit "edges", VList edges)])).
  { apply loads_canvas_json; try assumption; [apply ints_within_unlimited|].
    cbn [decoder_depth interp]. lia. }
  assert (H' : loads interp (canvas_json nodes' edges')
               = inr (VDict [(lit "nodes", VList nodes'); (lit "edges", VList edges')])).
  { apply loads_canvas_json; try assumption; [apply ints_within_unlimited|].
    cbn [decoder_depth interp]. lia. }
  rewrite E, H' in H. injection H as -> ->. now split.
Qed.

Lemma canvas_json_injective_witness :
  [VDict [(lit "id", VStr (lit "n1"))]] = [VDict [(lit "id", VStr (lit "n1"))]]
  /\ @nil value = [].
Proof.
  apply (@canvas_json_injective
           [VDict [(lit "id", VStr (lit "n1"))]] []
           [VDict [(lit "id", VStr (lit "n1"))]] []); reflexivity.
Defined.

Lemma typed_item_value_ok (declared : list (string * field_type)) (v : value) :
  typed_item_ok declared v = true -> value_ok v = true.
Proof.
  destruct v as [ | | | | | |items]; try discriminate. unfold typed_item_ok.
  intros H. apply andb_true_iff in H as [H Hs]. apply andb_true_iff in H as [Hc Hd].
  now apply (conforms_value_ok declared).
Qed.

(** A node or an edge that conforms to its declaration holds no
    container. *)
Lemma typed_item_nesting (declared : list (string * field_type)) (v : value) :
  typed_item_ok declared v = true -> (nesting v <= 1)%nat.
Proof.
  destruct v as [ | | | | | |items]; try discriminate. unfold typed_item_ok.
  intros H. apply andb_true_iff in H as [H _]. apply andb_true_iff in H as [Hc _].
  cbn [conforms] in Hc. rewrite forallb_forall in Hc.
  cbn [nesting]. apply le_n_S. apply nesting_le. intros [k x] Hx. cbn [snd].
  apply Hc in Hx. apply existsb_exists in Hx as ([name t] & _ & Ht). cbn [fst snd] in Ht.
  apply andb_true_iff in Ht as [_ Ht]. destruct t, x; try discriminate Ht; cbn; lia.
Qed.

Lemma nesting_canvas_data (nodes edges : list value) (d : nat) :
  (forall x, In x nodes -> (nesting x <= d)%nat) ->
  (forall x, In x edges -> (nesting x <= d)%nat) ->
  (nesting (canvas_data nodes edges) <= S (S d))%nat.
Proof.
  intros Hn He. apply (nesting_le nesting) in Hn. apply (nesting_le nesting) in He.
  cbn [nesting canvas_data List.map snd].
  set (a := list_max (List.map nesting nodes)) in *.
  set (b := list_max (List.map nesting edges)) in *.
  unfold list_max. cbn [fold_right]. lia.
Qed.

(** X13.  Nodes that conform to the declaration of [CanvasNode] and edges
    that conform to the declaration of [CanvasEdge], with any of the
    declared fields absent, are read back from the canvas body as they
    were supplied, provided no string value holds a high surrogate
    immediately followed by a low one, [json.dumps] returned the body (no
    integer has more digits than the limit on integer strings) and the
    decoder can enter three containers. *)
Theorem typed_canvas_roundtrip (interp : Interpreter) (nodes edges : list value)
    (body : str) :
  forallb (typed_item_ok CanvasNode) nodes = true ->
  forallb (typed_item_ok CanvasEdge) edges = true ->
  dumps interp (canvas_data nodes edges) 2 = inr body ->
  (3 <= decoder_depth interp)%nat ->
  loads interp body = inr (canvas_data nodes edges).
Proof.
  intros Hn He Hd Hdepth. apply (loads_dumps interp _ 2); [|exact Hd|].
  - cbn [value_ok canvas_data List.map fst snd forallb].
    assert (H : forall declared items,
               forallb (typed_item_ok declared) items = true ->
               forallb value_ok items = true).
    { intros declared items H. rewrite forallb_forall in *. intros x Hx.
      apply (typed_item_value_ok declared). now apply H. }
    now rewrite (H _ _ Hn), (H _ _ He).
  - rewrite forallb_forall in Hn, He.
    pose proof (@nesting_canvas_data nodes edges 1) as H.
    assert (Hle : (nesting (canvas_data nodes edges) <= 3)%nat).
    { apply H; intros x Hx; eapply typed_item_nesting; eauto. }
    lia.
Qed.

Lemma typed_canvas_roundtrip_witness :
  let nodes :=
    [VDict [(lit "id", VStr (lit "a")); (lit "type", VStr (lit "file"));
            (lit "file", VStr (lit "notes/Plan.md")); (lit "x", VInt 0);
            (lit "y", VInt 0); (lit "width", VInt 400); (lit "height", VInt 300)];
     VDict [(lit "id", VStr (lit "b")); (lit "type", VStr (lit "text"));
            (lit "text", VStr (lit "todo")); (lit "color", VStr (lit "3"))]] in
  let edges :=
    [VDict [(lit "id", VStr (lit "e")); (lit "fromNode", VStr (lit "a"));
            (lit "toNode", VStr (lit "b")); (lit "toSide", VStr (lit "left"))]] in
  loads Server.interpreter (canvas_json nodes edges) = inr (canvas_data nodes edges).
Proof.
  cbv zeta.
  apply (@typed_canvas_roundtrip Server.interpreter
           [VDict [(lit "id", VStr (lit "a")); (lit "type", VStr (lit "file"));
                   (lit "file", VStr (lit "notes/Plan.md")); (lit "x", VInt 0);
                   (lit "y", VInt 0); (lit "width", VInt 400); (lit "height", VInt 300)];
            VDict [(lit "id", VStr (lit "b")); (lit "type", VStr (lit "text"));
                   (lit "text", VStr (lit "todo")); (lit "color", VStr (lit "3"))]]
           [VDict [(lit "id", VStr (lit "e")); (lit "fromNode", VStr (lit "a"));
                   (lit "toNode", VStr (lit "b")); (lit "toSide", VStr (lit "left"))]]).
  - reflexivity.
  - reflexivity.
  - vm_compute. reflexivity.
  - vm_compute. lia.
Defined.

(** ** Folder and title *)

Lemma endswith_skipn (s suffix : str) :
  endswith s suffix
  = Nat.leb (length suffix) (length s)
    && Str.eqb (skipn (length s - length suffix) s) suffix.
Proof. reflexivity. Qed.

(** Whether a title ends with ".canvas" is not changed by putting a folder
    and a slash in front of it. *)
Lemma endswith_after_slash (sub title : str) :
  endswith (sub ++ lit "/" ++ title) (lit ".canvas") = endswith title (lit ".canvas").
Proof.
  destruct (Nat.leb (length (lit ".canvas")) (length title)) eqn:Hlen.
  - rewrite !endswith_skipn, Hlen. apply Nat.leb_le in Hlen.
    rewrite app_assoc, length_app.
    replace (Nat.leb (length (lit ".canvas")) (length (sub ++ lit "/") + length title))
      with true by (symmetry; apply Nat.leb_le; lia).
    rewrite skipn_app.
    replace (length (sub ++ lit "/") + length title - length (lit ".canvas")
             - length (sub ++ lit "/"))%nat
      with (length title - length (lit ".canvas"))%nat by lia.
    rewrite skipn_all2 by lia. reflexivity.
  - rewrite (endswith_skipn title), Hlen. cbn [andb].
    destruct (endswith (sub ++ lit "/" ++ title) (lit ".canvas")) eqn:E; [|reflexivity].
    exfalso. apply endswith_iff in E as [stem E].
    apply Nat.leb_gt in Hlen. cbn in Hlen.
    apply (f_equal (@rev N)) in E. rewrite !rev_app_distr in E.
    destruct title as [|a [|b [|c [|d [|e [|f [|g t]]]]]]];
      try (cbn in Hlen; lia); cbn in E; discriminate E.
Qed.

(** X14.  Where the folder stops and the title begins makes no difference
    to the destination: a trailing component of the folder can be given as
    a leading component of the title, and the path is the same. *)
Theorem file_path_boundary (folder sub title : str) :
  file_path (folder ++ lit "/" ++ sub) title
  = file_path folder (sub ++ lit "/" ++ title).
Proof.
  unfold file_path, file_title. rewrite endswith_after_slash.
  destruct (endswith title (lit ".canvas")); rewrite <- !app_assoc; reflexivity.
Qed.
